(** * Authorization and resource-ownership layer of the REST API

    A shallow embedding of the Express handlers of [src/auth.ts],
    [src/posts.ts], [src/comments.ts], [src/users.ts], [src/routes.ts] and
    of the error handler of [src/app.ts], over an explicit model of the
    relational store declared in [prisma/schema.prisma].

    Handlers are state-passing functions: they take the request and the
    store and return what they answered together with the store they
    leave behind. *)

From stdpp Require Import gmap strings list fin_maps sorting.
From Stdlib Require Import ZArith Ascii String.

Local Open Scope string_scope.
Local Open Scope Z_scope.

(** ** Data model ([prisma/schema.prisma], [src/types.ts]) *)

(** [enum UserRole { user admin }] *)
Inductive UserRole := user | admin.

#[global] Instance UserRole_eq_dec : EqDecision UserRole.
Proof. solve_decision. Defined.

Module User.
Record t := mk {
  id : string;
  email : string;
  password : string;
  firstName : string;
  lastName : string;
  country : string;
  role : UserRole;
  isVerified : bool;
  verificationToken : option string;
  createdAt : Z;
  updatedAt : Z
}.
End User.

Module Post.
Record t := mk {
  id : string;
  title : string;
  content : string;
  userId : string;
  createdAt : Z;
  updatedAt : Z
}.
End Post.

Module Comment.
Record t := mk {
  id : string;
  content : string;
  userId : string;
  postId : string;
  createdAt : Z;
  updatedAt : Z
}.
End Comment.

(** The three tables, each keyed by its primary key [id]. *)
Record DB := mkDB {
  users : gmap string User.t;
  posts : gmap string Post.t;
  comments : gmap string Comment.t
}.

(** JSON values as they arrive in [req.body] and [req.query]. *)
Inductive JValue :=
| JStr (s : string)
| JNum (z : Z)
| JBool (b : bool)
| JNull
| JOther.

(** [req.user]: the identity attached by [authenticate]. *)
Record ReqUser := mkReqUser {
  ru_id : string;
  ru_email : string;
  ru_role : UserRole
}.

Inductive Method := GET | POST | PATCH | DELETE.

#[global] Instance Method_eq_dec : EqDecision Method.
Proof. solve_decision. Defined.

(** The part of an Express request the router and the handlers read. *)
Record Request := mkRequest {
  method : Method;                        (* req.method *)
  path : list string;                     (* req.path, split at "/" *)
  authorization : option string;          (* req.headers.authorization *)
  params : gmap string string;            (* req.params *)
  query : gmap string JValue;             (* req.query *)
  body : gmap string JValue;              (* req.body, after express.json() *)
  req_user : option ReqUser               (* req.user *)
}.

(** What surrounds one request: the clock, the identifier the store
    generates for a created row, a storage failure injected at the given
    step of a transaction, and the verdict of each rate limiter. *)
Record Env := mkEnv {
  now : Z;                                (* Date.now(), milliseconds *)
  uuid : string;                          (* @default(uuid()) *)
  fault : option nat;
  limited : string → bool
}.

(** [jwtConfig] of [src/config.ts]; [expiresIn] is held in seconds. *)
Record JwtConfig := mkJwtConfig {
  secret : string;
  expiresIn : Z
}.

(** Errors that are thrown or handed to [next].  [src/config.ts] and
    [src/types.ts] each declare a class named [CustomError]; they are
    distinct classes for [instanceof]. *)
Inductive Err :=
| ZodError
| CustomError_config (statusCode : Z) (message : string)
| CustomError_types (statusCode : Z) (message : string)
| JsonWebTokenError
| TokenExpiredError
| PrismaKnownError (code : string)
| PrismaValidationError
| TypeError
| StorageFailure.

(** Selected columns of a user, as returned by [select: {...}]. *)
Record UserView := mkUserView {
  uv_id : string;
  uv_email : string;
  uv_firstName : string;
  uv_lastName : string;
  uv_role : UserRole
}.

Record Pagination := mkPagination {
  pg_page : Z;
  pg_limit : Z;
  pg_total : Z;
  pg_pages : option Z                     (* None: not a finite number *)
}.

(** Response payloads.  A payload is represented by the row it
    serialises; the [include] projections are left out. *)
Inductive Body :=
| BError (msg : string)
| BErrorOf (e : Err)                      (* { error: err.message } *)
| BText (msg : string)
| BZodIssues
| BEmpty
| BStatusOk
| BPost (p : Post.t)
| BComment (c : Comment.t)
| BPosts (data : list Post.t) (pg : Pagination)
| BComments (data : list Comment.t) (pg : Pagination)
| BUser (u : UserView)
| BAuth (u : UserView) (token : string).

(** How a middleware or handler ends. *)
Inductive Outcome :=
| Respond (status : Z) (b : Body)         (* res.status(s).json(b) *)
| NextOk                                  (* next() *)
| Next (e : Err)                          (* next(error) *)
| Throw (e : Err).                        (* the async function rejects *)

Definition status_of (o : Outcome) : option Z :=
  match o with
  | Respond s _ => Some s
  | _ => None
  end.

(** ** The store (Prisma client over the schema)

    The Prisma client is a library.  Its calls are modelled on the three
    tables as the schema declares them: [findUnique] is a lookup by key;
    [update] and [delete] raise the known request error P2025 when the row
    is absent; the relations [Post.user], [Comment.user] and
    [Comment.post] are [onDelete: Cascade]; a unique constraint raises
    P2002 and a dangling reference P2003. *)

Module prisma.

Definition set_users (f : gmap string User.t → gmap string User.t) (db : DB) : DB :=
  mkDB (f (users db)) (posts db) (comments db).
Definition set_posts (f : gmap string Post.t → gmap string Post.t) (db : DB) : DB :=
  mkDB (users db) (f (posts db)) (comments db).
Definition set_comments (f : gmap string Comment.t → gmap string Comment.t) (db : DB) : DB :=
  mkDB (users db) (posts db) (f (comments db)).

(** [prisma.X.findUnique({ where: { id } })] *)
Definition user_findUnique (id : string) (db : DB) : option User.t := users db !! id.
Definition post_findUnique (id : string) (db : DB) : option Post.t := posts db !! id.
Definition comment_findUnique (id : string) (db : DB) : option Comment.t := comments db !! id.

(** [prisma.user.findUnique({ where: { email } })]; [email] is [@unique]. *)
Definition user_findUnique_email (e : string) (db : DB) : option User.t :=
  snd <$> head (map_to_list (filter (λ kv : string * User.t, User.email kv.2 = e) (users db))).

(** Rows that go with a deleted post: [Comment.post ... onDelete: Cascade]. *)
Definition comment_of_post (pid : string) (kv : string * Comment.t) : Prop :=
  Comment.postId kv.2 = pid.

(** Rows that go with a deleted user: [Post.user] and [Comment.user] are
    [onDelete: Cascade], and the comments under a removed post follow it. *)
Definition post_of_user (uid : string) (kv : string * Post.t) : Prop :=
  Post.userId kv.2 = uid.
Definition comment_of_user (uid : string) (kv : string * Comment.t) : Prop :=
  Comment.userId kv.2 = uid.
Definition comment_under_user_post (ps : gmap string Post.t) (uid : string)
    (kv : string * Comment.t) : Prop :=
  ∃ p, ps !! Comment.postId kv.2 = Some p ∧ Post.userId p = uid.

#[global] Instance comment_of_post_dec pid kv : Decision (comment_of_post pid kv).
Proof. unfold comment_of_post. apply _. Defined.
#[global] Instance post_of_user_dec uid kv : Decision (post_of_user uid kv).
Proof. unfold post_of_user. apply _. Defined.
#[global] Instance comment_of_user_dec uid kv : Decision (comment_of_user uid kv).
Proof. unfold comment_of_user. apply _. Defined.
#[global] Instance comment_under_user_post_dec ps uid kv :
  Decision (comment_under_user_post ps uid kv).
Proof.
  unfold comment_under_user_post.
  destruct (ps !! Comment.postId kv.2) as [p|] eqn:E.
  - destruct (decide (Post.userId p = uid)) as [Hu|Hu].
    + left. by exists p.
    + right. intros (q & Hq & Hq'). congruence.
  - right. intros (q & Hq & _). congruence.
Defined.

(** [prisma.comment.deleteMany({ where: { postId } })] *)
Definition comment_deleteMany_postId (pid : string) (db : DB) : Err + DB :=
  inr (set_comments (filter (λ kv, ¬ comment_of_post pid kv)) db).

(** [prisma.comment.deleteMany({ where: { userId } })] *)
Definition comment_deleteMany_userId (uid : string) (db : DB) : Err + DB :=
  inr (set_comments (filter (λ kv, ¬ comment_of_user uid kv)) db).

(** [prisma.post.deleteMany({ where: { userId } })], with the cascade to
    the comments of the removed posts. *)
Definition post_deleteMany_userId (uid : string) (db : DB) : Err + DB :=
  inr (mkDB (users db)
            (filter (λ kv, ¬ post_of_user uid kv) (posts db))
            (filter (λ kv, ¬ comment_under_user_post (posts db) uid kv) (comments db))).

(** [prisma.post.delete({ where: { id } })]: fails with P2025 when the
    row is absent; the comments of the post go with it. *)
Definition post_delete (id : string) (db : DB) : Err + DB :=
  match posts db !! id with
  | None => inl (PrismaKnownError "P2025")
  | Some _ =>
      inr (mkDB (users db)
                (delete id (posts db))
                (filter (λ kv, ¬ comment_of_post id kv) (comments db)))
  end.

(** [prisma.comment.delete({ where: { id } })] *)
Definition comment_delete (id : string) (db : DB) : Err + DB :=
  match comments db !! id with
  | None => inl (PrismaKnownError "P2025")
  | Some _ => inr (set_comments (delete id) db)
  end.

(** [prisma.user.delete({ where: { id } })], with the cascade to the
    user's posts, the comments under them, and the user's comments. *)
Definition user_delete (id : string) (db : DB) : Err + DB :=
  match users db !! id with
  | None => inl (PrismaKnownError "P2025")
  | Some _ =>
      inr (mkDB (delete id (users db))
                (filter (λ kv, ¬ post_of_user id kv) (posts db))
                (filter (λ kv, ¬ comment_of_user id kv ∧
                               ¬ comment_under_user_post (posts db) id kv)
                        (comments db)))
  end.

(** Modelled from the spec: [prisma.$transaction([...])] belongs to the
    Prisma client, which is not part of the sources.  Section 4.4 of the
    specification describes it as a single all-or-nothing transaction:
    the statements run in order; when one of them fails, or the storage
    fails at some step (a statement or the final commit), nothing takes
    effect. *)
Fixpoint run_statements (flt : option nat) (k : nat)
    (stmts : list (DB → Err + DB)) (db : DB) : Err + DB :=
  if decide (flt = Some k) then inl StorageFailure
  else match stmts with
       | [] => inr db
       | s :: rest =>
           match s db with
           | inl e => inl e
           | inr db' => run_statements flt (S k) rest db'
           end
       end.

Definition transaction (flt : option nat) (stmts : list (DB → Err + DB))
    (db : DB) : option Err * DB :=
  match run_statements flt 0 stmts db with
  | inl e => (Some e, db)
  | inr db' => (None, db')
  end.

End prisma.

(** ** Token structure and the primitives of the libraries *)

(** The claims a token carries: [{ userId, email, role }] as given to
    [jwt.sign], with the issue and expiry instants the library adds
    (seconds). *)
Record JwtPayload := mkJwtPayload {
  jp_userId : string;
  jp_email : string;
  jp_role : UserRole;
  jp_iat : Z;
  jp_exp : Z
}.

Record Jwt := mkJwt {
  jwt_payload : JwtPayload;
  jwt_signature : string
}.

(** Primitives of zod, bcrypt and jsonwebtoken that the model does not
    open: the format predicates, the password hash, the keyed signature
    and the compact serialisation of a token (which can be read back). *)
Class Externals := {
  is_email : string → bool;
  is_uuid : string → bool;
  bcrypt_hash : string → string;
  bcrypt_compare : string → string → bool;
  hmac : string → JwtPayload → string;
  jwt_serialize : Jwt → string;
  jwt_parse : string → option Jwt;
  jwt_parse_serialize : ∀ t, jwt_parse (jwt_serialize t) = Some t
}.

(** ** Schema validation (zod)

    Lengths are counted in characters of the Rocq string, and the numbers
    read from a query are exact integers. *)

Module zod.

Inductive Check :=
| min (n : Z)
| max (n : Z)
| email
| uuid
| regex_digits.                         (* .regex(/^\d+$/) *)

Inductive Presence :=
| required
| optional
| default (d : string).

Inductive FieldType :=
| z_string (checks : list Check)
| z_enum (values : list string).

Record Field := mkField {
  ftype : FieldType;
  presence : Presence
}.

Definition is_digit (c : ascii) : bool :=
  let n := nat_of_ascii c in (48 <=? n)%nat && (n <=? 57)%nat.

Fixpoint all_digits (s : string) : bool :=
  match s with
  | EmptyString => true
  | String c s' => is_digit c && all_digits s'
  end.

(** [/^\d+$/.test(s)] *)
Definition matches_digits (s : string) : bool :=
  match s with
  | EmptyString => false
  | _ => all_digits s
  end.

(** [parseInt(s)] on a string of decimal digits. *)
Fixpoint parseInt_acc (acc : Z) (s : string) : Z :=
  match s with
  | EmptyString => acc
  | String c s' => parseInt_acc (10 * acc + (Z.of_nat (nat_of_ascii c) - 48)) s'
  end.
Definition parseInt (s : string) : Z := parseInt_acc 0 s.

Section with_externals.
Context {ext : Externals}.

Definition check_ok (c : Check) (s : string) : bool :=
  match c with
  | min n => n <=? Z.of_nat (String.length s)
  | max n => Z.of_nat (String.length s) <=? n
  | email => is_email s
  | uuid => is_uuid s
  | regex_digits => matches_digits s
  end.

Definition type_ok (t : FieldType) (v : JValue) : bool :=
  match t, v with
  | z_string cs, JStr s => forallb (λ c, check_ok c s) cs
  | z_enum vs, JStr s => bool_decide (s ∈ vs)
  | _, _ => false
  end.

(** Parse one key.  [None]: an issue is raised.  [Some None]: the key
    is left out of the result.  [Some (Some v)]: the parsed value. *)
Definition parse_field (f : Field) (v : option JValue) : option (option JValue) :=
  match v with
  | Some x => if type_ok (ftype f) x then Some (Some x) else None
  | None =>
      match presence f with
      | required => None
      | optional => Some None
      | default d => if type_ok (ftype f) (JStr d) then Some (Some (JStr d)) else None
      end
  end.

(** [z.object({...}).parse(input)]: every declared key is parsed, keys
    that are not declared are stripped.  [None] stands for a thrown
    [ZodError]. *)
Fixpoint parse (schema : list (string * Field)) (input : gmap string JValue)
    : option (gmap string JValue) :=
  match schema with
  | [] => Some ∅
  | (k, f) :: rest =>
      match parse_field f (input !! k), parse rest input with
      | Some (Some x), Some m => Some (<[k := x]> m)
      | Some None, Some m => Some m
      | _, _ => None
      end
  end.

End with_externals.

Definition str (cs : list Check) : Field := mkField (z_string cs) required.
Definition str_opt (cs : list Check) : Field := mkField (z_string cs) optional.
Definition str_default (cs : list Check) (d : string) : Field :=
  mkField (z_string cs) (default d).

End zod.

(** Reading a validated object. *)
Definition get_str (k : string) (m : gmap string JValue) : option string :=
  match m !! k with
  | Some (JStr s) => Some s
  | _ => None
  end.

Definition role_of_string (s : string) : option UserRole :=
  if decide (s = "user") then Some user
  else if decide (s = "admin") then Some admin
  else None.

Definition view_of (u : User.t) : UserView :=
  mkUserView (User.id u) (User.email u) (User.firstName u) (User.lastName u) (User.role u).

(** ** Writes to the store *)

Module prisma_write.
Import prisma.

(** Columns of [User] that [create] accepts in [data]. *)
Definition user_columns : list string :=
  ["id"; "email"; "password"; "firstName"; "lastName"; "country"; "role";
   "isVerified"; "verificationToken"].

Definition keys_within (cols : list string) (data : gmap string JValue) : bool :=
  bool_decide (∀ k, k ∈ dom data → k ∈ cols).

(** The row [prisma.user.create({ data })] builds: required columns are
    read from [data], the others fall back on their [@default]. *)
Definition user_of_data (env : Env) (data : gmap string JValue) : option User.t :=
  if negb (keys_within user_columns data) then None else
  match get_str "email" data, get_str "password" data, get_str "firstName" data,
        get_str "lastName" data, get_str "country" data with
  | Some e, Some pw, Some fn, Some ln, Some co =>
      let id := match data !! "id" with
                | None => Some (uuid env)
                | Some (JStr s) => Some s
                | Some _ => None
                end in
      let role := match data !! "role" with
                  | None => Some user
                  | Some (JStr s) => role_of_string s
                  | Some _ => None
                  end in
      let verified := match data !! "isVerified" with
                      | None => Some false
                      | Some (JBool b) => Some b
                      | Some _ => None
                      end in
      let vtoken := match data !! "verificationToken" with
                    | None | Some JNull => Some None
                    | Some (JStr s) => Some (Some s)
                    | Some _ => None
                    end in
      match id, role, verified, vtoken with
      | Some id, Some r, Some v, Some vt =>
          Some (User.mk id e pw fn ln co r v vt (now env) (now env))
      | _, _, _, _ => None
      end
  | _, _, _, _, _ => None
  end.

Definition verification_token_taken (t : option string) (db : DB) : Prop :=
  ∃ s, t = Some s ∧
       filter (λ kv : string * User.t, User.verificationToken kv.2 = Some s) (users db) ≠ ∅.

#[global] Instance verification_token_taken_dec t db :
  Decision (verification_token_taken t db).
Proof.
  unfold verification_token_taken. destruct t as [s|].
  - destruct (decide (filter (λ kv : string * User.t,
                User.verificationToken kv.2 = Some s) (users db) ≠ ∅)) as [Hn|Hn].
    + left. by exists s.
    + right. intros (s' & Hs & Hf). by simplify_eq.
  - right. intros (s' & Hs & _). done.
Defined.

(** [prisma.user.create({ data })]: P2002 on a unique constraint. *)
Definition user_create (env : Env) (data : gmap string JValue) (db : DB)
    : Err + (User.t * DB) :=
  match user_of_data env data with
  | None => inl PrismaValidationError
  | Some u =>
      if bool_decide (is_Some (users db !! User.id u)) then inl (PrismaKnownError "P2002")
      else if bool_decide (is_Some (user_findUnique_email (User.email u) db))
      then inl (PrismaKnownError "P2002")
      else if bool_decide (verification_token_taken (User.verificationToken u) db)
      then inl (PrismaKnownError "P2002")
      else inr (u, set_users (insert (User.id u) u) db)
  end.

(** [prisma.post.create({ data: { title, content, userId } })]: P2003
    when the owner does not exist. *)
Definition post_create (env : Env) (title content userId : string) (db : DB)
    : Err + (Post.t * DB) :=
  if bool_decide (is_Some (posts db !! uuid env)) then inl (PrismaKnownError "P2002")
  else if bool_decide (users db !! userId = None) then inl (PrismaKnownError "P2003")
  else let p := Post.mk (uuid env) title content userId (now env) (now env) in
       inr (p, set_posts (insert (uuid env) p) db).

(** [prisma.comment.create({ data: { content, postId, userId } })] *)
Definition comment_create (env : Env) (content postId userId : string) (db : DB)
    : Err + (Comment.t * DB) :=
  if bool_decide (is_Some (comments db !! uuid env)) then inl (PrismaKnownError "P2002")
  else if bool_decide (users db !! userId = None) then inl (PrismaKnownError "P2003")
  else if bool_decide (posts db !! postId = None) then inl (PrismaKnownError "P2003")
  else let c := Comment.mk (uuid env) content userId postId (now env) (now env) in
       inr (c, set_comments (insert (uuid env) c) db).

(** Columns of [Post] that [update] accepts in [data]. *)
Definition post_columns : list string := ["title"; "content"; "userId"].

Definition str_or (k : string) (data : gmap string JValue) (old : string) : option string :=
  match data !! k with
  | None => Some old
  | Some (JStr s) => Some s
  | Some _ => None
  end.

(** The row after [prisma.post.update({ data })]: every column named in
    [data] takes the given value, [updatedAt] is refreshed. *)
Definition post_with (env : Env) (data : gmap string JValue) (p : Post.t) : option Post.t :=
  if negb (keys_within post_columns data) then None else
  match str_or "title" data (Post.title p), str_or "content" data (Post.content p),
        str_or "userId" data (Post.userId p) with
  | Some t, Some c, Some o => Some (Post.mk (Post.id p) t c o (Post.createdAt p) (now env))
  | _, _, _ => None
  end.

(** [prisma.post.update({ where: { id }, data })] *)
Definition post_update (env : Env) (id : string) (data : gmap string JValue) (db : DB)
    : Err + (Post.t * DB) :=
  match posts db !! id with
  | None =>
      if negb (keys_within post_columns data) then inl PrismaValidationError
      else inl (PrismaKnownError "P2025")
  | Some p =>
      match post_with env data p with
      | None => inl PrismaValidationError
      | Some p' =>
          if bool_decide (is_Some (data !! "userId"))
             && bool_decide (users db !! Post.userId p' = None)
          then inl (PrismaKnownError "P2003")
          else inr (p', set_posts (insert id p') db)
      end
  end.

(** [prisma.comment.update({ where: { id }, data: { content } })] *)
Definition comment_update (env : Env) (id content : string) (db : DB)
    : Err + (Comment.t * DB) :=
  match comments db !! id with
  | None => inl (PrismaKnownError "P2025")
  | Some c =>
      let c' := Comment.mk (Comment.id c) content (Comment.userId c) (Comment.postId c)
                           (Comment.createdAt c) (now env) in
      inr (c', set_comments (insert id c') db)
  end.

(** [prisma.user.update({ where: { id }, data: { role } })] *)
Definition user_update_role (env : Env) (id : string) (r : UserRole) (db : DB)
    : Err + (User.t * DB) :=
  match users db !! id with
  | None => inl (PrismaKnownError "P2025")
  | Some u =>
      let u' := User.mk (User.id u) (User.email u) (User.password u) (User.firstName u)
                        (User.lastName u) (User.country u) r (User.isVerified u)
                        (User.verificationToken u) (User.createdAt u) (now env) in
      inr (u', set_users (insert id u') db)
  end.

End prisma_write.

(** ** Listing helpers *)

(** [orderBy: { createdAt: "desc" }]; rows with equal instants keep the
    order in which the table enumerates them. *)
Definition newer_post (a b : Post.t) : Prop := Post.createdAt b ≤ Post.createdAt a.
Definition newer_comment (a b : Comment.t) : Prop := Comment.createdAt b ≤ Comment.createdAt a.

#[global] Instance newer_post_dec a b : Decision (newer_post a b).
Proof. unfold newer_post. apply _. Defined.
#[global] Instance newer_comment_dec a b : Decision (newer_comment a b).
Proof. unfold newer_comment. apply _. Defined.

(** [skip] and [take] of [findMany]. *)
Definition page_of {A} (skip take : Z) (l : list A) : list A :=
  firstn (Z.to_nat take) (skipn (Z.to_nat skip) l).

(** [Math.ceil(total / limit)], which is not finite when [limit] is 0. *)
Definition pages_of (total limit : Z) : option Z :=
  if decide (limit = 0) then None else Some ((total + limit - 1) / limit).

(** ** [src/posts.ts] *)

Module postHandlers.
Import prisma prisma_write.

Definition createPostSchema : list (string * zod.Field) :=
  [("title", zod.str [zod.min 1; zod.max 200]);
   ("content", zod.str [zod.min 1; zod.max 10000])].

Definition updatePostSchema : list (string * zod.Field) :=
  [("title", zod.str_opt [zod.min 1; zod.max 200]);
   ("content", zod.str_opt [zod.min 1; zod.max 10000])].

Definition querySchema : list (string * zod.Field) :=
  [("page", zod.str_default [zod.regex_digits] "1");
   ("limit", zod.str_default [zod.regex_digits] "10");
   ("userId", zod.str_opt [zod.uuid])].

Section handlers.
Context {ext : Externals}.

Definition create (env : Env) (req : Request) (db : DB) : Outcome * DB :=
  match zod.parse createPostSchema (body req) with
  | None => (Respond 400 BZodIssues, db)
  | Some data =>
      match get_str "title" data, get_str "content" data with
      | Some title, Some content =>
          match req_user req with
          | None => (Next TypeError, db)
          | Some u =>
              match post_create env title content (ru_id u) db with
              | inl e => (Next e, db)
              | inr (post, db') => (Respond 201 (BPost post), db')
              end
          end
      | _, _ => (Next PrismaValidationError, db)
      end
  end.

Definition update (env : Env) (req : Request) (db : DB) : Outcome * DB :=
  match zod.parse updatePostSchema (body req) with
  | None => (Respond 400 BZodIssues, db)
  | Some updates =>
      match params req !! "id" with
      | None => (Next PrismaValidationError, db)
      | Some id =>
          match post_findUnique id db with
          | None => (Respond 404 (BError "Post not found"), db)
          | Some post =>
              match req_user req with
              | None => (Next TypeError, db)
              | Some u =>
                  if bool_decide (Post.userId post ≠ ru_id u)
                     && bool_decide (ru_role u ≠ admin)
                  then (Respond 403 (BError "Not authorized to update this post"), db)
                  else
                    match post_update env id updates db with
                    | inl e => (Next e, db)
                    | inr (updatedPost, db') => (Respond 200 (BPost updatedPost), db')
                    end
              end
          end
      end
  end.

Definition delete (env : Env) (req : Request) (db : DB) : Outcome * DB :=
  match params req !! "id" with
  | None => (Next PrismaValidationError, db)
  | Some id =>
      match post_findUnique id db with
      | None => (Respond 404 (BError "Post not found"), db)
      | Some post =>
          match req_user req with
          | None => (Next TypeError, db)
          | Some u =>
              if bool_decide (Post.userId post ≠ ru_id u)
                 && bool_decide (ru_role u ≠ admin)
              then (Respond 403 (BError "Not authorized to delete this post"), db)
              else
                match transaction (fault env)
                        [comment_deleteMany_postId id; post_delete id] db with
                | (Some e, db') => (Next e, db')
                | (None, db') => (Respond 204 BEmpty, db')
                end
          end
      end
  end.

Definition getOne (env : Env) (req : Request) (db : DB) : Outcome * DB :=
  match params req !! "id" with
  | None => (Next PrismaValidationError, db)
  | Some id =>
      match post_findUnique id db with
      | None => (Respond 404 (BError "Post not found"), db)
      | Some post => (Respond 200 (BPost post), db)
      end
  end.

Definition getMany (env : Env) (req : Request) (db : DB) : Outcome * DB :=
  match zod.parse querySchema (query req) with
  | None => (Respond 400 BZodIssues, db)
  | Some q =>
      match get_str "page" q, get_str "limit" q with
      | Some page, Some limit =>
          let skip := (zod.parseInt page - 1) * zod.parseInt limit in
          let selected :=
            match get_str "userId" q with
            | Some userId =>
                if decide (userId = "") then posts db
                else filter (λ kv, post_of_user userId kv) (posts db)
            | None => posts db
            end in
          if decide (skip < 0) then (Next PrismaValidationError, db)
          else
            let rows := merge_sort newer_post (snd <$> map_to_list selected) in
            let total := Z.of_nat (size selected) in
            (Respond 200
               (BPosts (page_of skip (zod.parseInt limit) rows)
                       (mkPagination (zod.parseInt page) (zod.parseInt limit) total
                                     (pages_of total (zod.parseInt limit)))),
             db)
      | _, _ => (Next TypeError, db)
      end
  end.

End handlers.
End postHandlers.

(** ** [src/comments.ts] *)

Module commentHandlers.
Import prisma prisma_write.

Definition createCommentSchema : list (string * zod.Field) :=
  [("content", zod.str [zod.min 1; zod.max 1000]);
   ("postId", zod.str [zod.uuid])].

Definition updateCommentSchema : list (string * zod.Field) :=
  [("content", zod.str [zod.min 1; zod.max 1000])].

(** [paginationSchema.parse(req.query)]: the numbers [page] and [limit]. *)
Definition paginationSchema (q : gmap string JValue) : option (Z * Z) :=
  let digits (k d : string) : option Z :=
    match q !! k with
    | None => Some (zod.parseInt d)
    | Some (JStr s) => if zod.matches_digits s then Some (zod.parseInt s) else None
    | Some _ => None
    end in
  let sortBy_ok :=
    match q !! "sortBy" with
    | None => true
    | Some (JStr s) => bool_decide (s ∈ ["asc"; "desc"])
    | Some _ => false
    end in
  let search_ok :=
    match q !! "search" with
    | None | Some (JStr _) => true
    | Some _ => false
    end in
  match digits "page" "1", digits "limit" "10" with
  | Some page, Some limit =>
      if bool_decide (1 ≤ limit ∧ limit ≤ 100) && sortBy_ok && search_ok
         && bool_decide (page > 0)
      then Some (page, limit) else None
  | _, _ => None
  end.

Section handlers.
Context {ext : Externals}.

Definition create (env : Env) (req : Request) (db : DB) : Outcome * DB :=
  match zod.parse createCommentSchema (body req) with
  | None => (Respond 400 BZodIssues, db)
  | Some data =>
      match get_str "content" data, get_str "postId" data with
      | Some content, Some postId =>
          match post_findUnique postId db with
          | None => (Respond 404 (BError "Post not found"), db)
          | Some _ =>
              match req_user req with
              | None => (Next TypeError, db)
              | Some u =>
                  match comment_create env content postId (ru_id u) db with
                  | inl e => (Next e, db)
                  | inr (comment, db') => (Respond 201 (BComment comment), db')
                  end
              end
          end
      | _, _ => (Next PrismaValidationError, db)
      end
  end.

Definition update (env : Env) (req : Request) (db : DB) : Outcome * DB :=
  match zod.parse updateCommentSchema (body req) with
  | None => (Respond 400 BZodIssues, db)
  | Some data =>
      match get_str "content" data with
      | None => (Next PrismaValidationError, db)
      | Some content =>
          match params req !! "id" with
          | None => (Next PrismaValidationError, db)
          | Some id =>
              match comment_findUnique id db with
              | None => (Respond 404 (BError "Comment not found"), db)
              | Some comment =>
                  match req_user req with
                  | None => (Next TypeError, db)
                  | Some u =>
                      if bool_decide (Comment.userId comment ≠ ru_id u)
                         && bool_decide (ru_role u ≠ admin)
                      then (Respond 403 (BError "Not authorized"), db)
                      else
                        match comment_update env id content db with
                        | inl e => (Next e, db)
                        | inr (updatedComment, db') =>
                            (Respond 200 (BComment updatedComment), db')
                        end
                  end
              end
          end
      end
  end.

Definition delete (env : Env) (req : Request) (db : DB) : Outcome * DB :=
  match params req !! "id" with
  | None => (Next PrismaValidationError, db)
  | Some id =>
      match comment_findUnique id db with
      | None => (Respond 404 (BError "Comment not found"), db)
      | Some comment =>
          match req_user req with
          | None => (Next TypeError, db)
          | Some u =>
              if bool_decide (Comment.userId comment ≠ ru_id u)
                 && bool_decide (ru_role u ≠ admin)
              then (Respond 403 (BError "Not authorized"), db)
              else
                match comment_delete id db with
                | inl e => (Next e, db)
                | inr db' => (Respond 204 BEmpty, db')
                end
          end
      end
  end.

Definition getByPost (env : Env) (req : Request) (db : DB) : Outcome * DB :=
  match paginationSchema (query req) with
  | None => (Respond 400 BZodIssues, db)
  | Some (page, limit) =>
      let skip := (page - 1) * limit in
      match params req !! "postId" with
      | None => (Next PrismaValidationError, db)
      | Some postId =>
          match post_findUnique postId db with
          | None => (Respond 404 (BError "Post not found"), db)
          | Some _ =>
              let selected := filter (λ kv, comment_of_post postId kv) (comments db) in
              let rows := merge_sort newer_comment (snd <$> map_to_list selected) in
              let total := Z.of_nat (size selected) in
              (Respond 200
                 (BComments (page_of skip limit rows)
                            (mkPagination page limit total (pages_of total limit))),
               db)
          end
      end
  end.

End handlers.
End commentHandlers.

(** ** [src/users.ts]: the admin user-management handlers

    These two functions have no [try]/[catch]: what they throw leaves the
    handler as a rejection. *)

Module userHandlers.
Import prisma prisma_write.

(** [z.object({ role: z.enum(["user", "admin"]) })] *)
Definition roleSchema : list (string * zod.Field) :=
  [("role", zod.mkField (zod.z_enum ["user"; "admin"]) zod.required)].

Section handlers.
Context {ext : Externals}.

Definition updateUserRole (env : Env) (req : Request) (db : DB) : Outcome * DB :=
  match zod.parse roleSchema (body req) with
  | None => (Throw ZodError, db)
  | Some data =>
      match req_user req with
      | None => (Throw TypeError, db)
      | Some u =>
          if bool_decide (params req !! "id" = Some (ru_id u))
          then (Throw (CustomError_config 400 "Cannot update your own role"), db)
          else
            match params req !! "id", get_str "role" data ≫= role_of_string with
            | Some id, Some role =>
                match user_update_role env id role db with
                | inl e => (Throw e, db)
                | inr (updatedUser, db') => (Respond 200 (BUser (view_of updatedUser)), db')
                end
            | _, _ => (Throw PrismaValidationError, db)
            end
      end
  end.

Definition deleteUser (env : Env) (req : Request) (db : DB) : Outcome * DB :=
  match req_user req with
  | None => (Throw TypeError, db)
  | Some u =>
      if bool_decide (params req !! "id" = Some (ru_id u))
      then (Throw (CustomError_config 400 "Cannot delete your own account"), db)
      else
        match params req !! "id" with
        | None => (Throw PrismaValidationError, db)
        | Some id =>
            match transaction (fault env)
                    [comment_deleteMany_userId id;
                     post_deleteMany_userId id;
                     user_delete id] db with
            | (Some e, db') => (Throw e, db')
            | (None, db') => (Respond 204 BEmpty, db')
            end
        end
  end.

End handlers.
End userHandlers.

(** ** Token service *)

Module jwt.
Section with_externals.
Context {ext : Externals}.

(** Modelled from the spec: [jwt.sign] is the jsonwebtoken library,
    which is not part of the sources.  Section 4.1: [issue] produces a
    signed token embedding [{id, email, role}] and an expiry computed
    from the configured time-to-live. *)
Definition sign (userId email : string) (role : UserRole)
    (secretOrKey : string) (ttl : Z) (clock : Z) : string :=
  let p := mkJwtPayload userId email role clock (clock + ttl) in
  jwt_serialize (mkJwt p (hmac secretOrKey p)).

(** Modelled from the spec: [jwt.verify] is the jsonwebtoken library,
    which is not part of the sources.  Section 4.1: [verify] fails
    with InvalidToken when the payload is malformed or the signature
    does not match, fails with TokenExpired when the current time
    exceeds the embedded expiry, and otherwise returns the embedded
    claims. *)
Definition verify (token : string) (secretOrKey : string) (clock : Z)
    : Err + JwtPayload :=
  match jwt_parse token with
  | None => inl JsonWebTokenError
  | Some t =>
      if bool_decide (jwt_signature t = hmac secretOrKey (jwt_payload t))
      then if bool_decide (jp_exp (jwt_payload t) < clock)
           then inl TokenExpiredError
           else inr (jwt_payload t)
      else inl JsonWebTokenError
  end.

(** [TokenExpiredError] extends [JsonWebTokenError]. *)
Definition instanceof_JsonWebTokenError (e : Err) : bool :=
  match e with
  | JsonWebTokenError | TokenExpiredError => true
  | _ => false
  end.

End with_externals.
End jwt.

(** The clock in seconds: [Math.floor(Date.now() / 1000)]. *)
Definition seconds (env : Env) : Z := now env / 1000.

(** ** [src/auth.ts] *)

(** [s.split(sep)] for a one-character separator. *)
Fixpoint split (sep : ascii) (s : string) : list string :=
  match s with
  | EmptyString => [EmptyString]
  | String c s' =>
      if Ascii.eqb c sep then EmptyString :: split sep s'
      else match split sep s' with
           | w :: ws => String c w :: ws
           | [] => [String c EmptyString]
           end
  end.

Definition set_user (u : option ReqUser) (req : Request) : Request :=
  mkRequest (method req) (path req) (authorization req) (params req) (query req)
            (body req) u.

Definition set_params (ps : gmap string string) (req : Request) : Request :=
  mkRequest (method req) (path req) (authorization req) ps (query req)
            (body req) (req_user req).

Section auth.
Context {ext : Externals}.
Variable jwtConfig : JwtConfig.
Import prisma prisma_write.

(** [req.headers.authorization?.split(" ")[1]] *)
Definition bearer_token (req : Request) : option string :=
  match authorization req with
  | None => None
  | Some h => split " "%char h !! 1%nat
  end.

Definition authenticate (env : Env) (req : Request) (db : DB) : Outcome * Request :=
  match bearer_token req with
  | None | Some EmptyString =>
      (Respond 401 (BError "Authentication required"), req)
  | Some token =>
      match jwt.verify token (secret jwtConfig) (seconds env) with
      | inl e =>
          if jwt.instanceof_JsonWebTokenError e
          then (Respond 401 (BError "Invalid token"), req)
          else (Next e, req)
      | inr decoded =>
          match user_findUnique (jp_userId decoded) db with
          | None => (Respond 401 (BError "Invalid token"), req)
          | Some u =>
              (NextOk,
               set_user (Some (mkReqUser (User.id u) (User.email u) (User.role u))) req)
          end
      end
  end.

Definition requireAdmin (env : Env) (req : Request) (db : DB) : Outcome * Request :=
  if bool_decide (ru_role <$> req_user req ≠ Some admin)
  then (Respond 403 (BError "Admin access required"), req)
  else (NextOk, req).

End auth.

Module authHandlers.
Import prisma prisma_write.

Definition signupSchema : list (string * zod.Field) :=
  [("email", zod.str [zod.email]);
   ("password", zod.str [zod.min 8]);
   ("firstName", zod.str [zod.min 2]);
   ("lastName", zod.str [zod.min 2]);
   ("country", zod.str [zod.min 2])].

Definition loginSchema : list (string * zod.Field) :=
  [("email", zod.str [zod.email]);
   ("password", zod.str [])].

Definition createAdminSchema : list (string * zod.Field) :=
  [("email", zod.str [zod.email]);
   ("password", zod.str [zod.min 8]);
   ("firstName", zod.str [zod.min 2]);
   ("lastName", zod.str [zod.min 2])].

Section handlers.
Context {ext : Externals}.
Variable jwtConfig : JwtConfig.

Definition signup (env : Env) (req : Request) (db : DB) : Outcome * DB :=
  match zod.parse signupSchema (body req) with
  | None => (Respond 400 BZodIssues, db)
  | Some data =>
      match get_str "email" data, get_str "password" data with
      | Some e, Some pw =>
          match user_findUnique_email e db with
          | Some _ => (Respond 400 (BError "Email already registered"), db)
          | None =>
              let hashedPassword := bcrypt_hash pw in
              match user_create env
                      (<["role" := JStr "user"]>
                         (<["password" := JStr hashedPassword]> data)) db with
              | inl err => (Next err, db)
              | inr (u, db') =>
                  let token := jwt.sign (User.id u) (User.email u) (User.role u)
                                 (secret jwtConfig) (expiresIn jwtConfig) (seconds env) in
                  (Respond 201 (BAuth (view_of u) token), db')
              end
          end
      | _, _ => (Next TypeError, db)
      end
  end.

Definition login (env : Env) (req : Request) (db : DB) : Outcome * DB :=
  match zod.parse loginSchema (body req) with
  | None => (Respond 400 BZodIssues, db)
  | Some data =>
      match get_str "email" data, get_str "password" data with
      | Some e, Some pw =>
          match user_findUnique_email e db with
          | None => (Respond 401 (BError "Invalid credentials"), db)
          | Some u =>
              if negb (bcrypt_compare pw (User.password u))
              then (Respond 401 (BError "Invalid credentials"), db)
              else
                let token := jwt.sign (User.id u) (User.email u) (User.role u)
                               (secret jwtConfig) (expiresIn jwtConfig) (seconds env) in
                (Respond 200 (BAuth (view_of u) token), db)
          end
      | _, _ => (Next TypeError, db)
      end
  end.

Definition createAdmin (env : Env) (req : Request) (db : DB) : Outcome * DB :=
  match zod.parse createAdminSchema (body req) with
  | None => (Respond 400 BZodIssues, db)
  | Some data =>
      match get_str "email" data, get_str "password" data with
      | Some e, Some pw =>
          match user_findUnique_email e db with
          | Some _ => (Respond 400 (BError "Email already registered"), db)
          | None =>
              let hashedPassword := bcrypt_hash pw in
              match user_create env
                      (<["country" := JStr "N/A"]>
                         (<["role" := JStr "admin"]>
                            (<["password" := JStr hashedPassword]> data))) db with
              | inl err => (Next err, db)
              | inr (u, db') => (Respond 201 (BUser (view_of u)), db')
              end
          end
      | _, _ => (Next TypeError, db)
      end
  end.

End handlers.
End authHandlers.

(** ** [src/app.ts]: the error-handling middleware *)

(** [err instanceof CustomError], for the class imported from [./types]. *)
Definition errorHandler (production : bool) (err : Err) : Z * Body :=
  match err with
  | ZodError => (400, BError "Validation error")
  | CustomError_types statusCode message => (statusCode, BError message)
  | JsonWebTokenError | TokenExpiredError => (401, BError "Invalid token")
  | _ => (500, if production then BError "Internal server error" else BErrorOf err)
  end.

(** ** [src/routes.ts] *)

Inductive Segment :=
| lit (s : string)
| param (name : string).

(** Match a route pattern against the segments of a path, collecting
    [req.params]. *)
Fixpoint match_path (pattern : list Segment) (p : list string) : option (gmap string string) :=
  match pattern, p with
  | [], [] => Some ∅
  | lit s :: pattern', x :: p' =>
      if decide (s = x) then match_path pattern' p' else None
  | param name :: pattern', x :: p' =>
      (λ ps, <[name := x]> ps) <$> match_path pattern' p'
  | _, _ => None
  end.

(** A middleware sees the request and the store and either answers or
    passes both on. *)
Definition Middleware : Type := Env → Request → DB → Outcome * (Request * DB).

Definition gate (f : Env → Request → DB → Outcome * Request) : Middleware :=
  λ env req db, let '(o, req') := f env req db in (o, (req', db)).

Definition endpoint (h : Env → Request → DB → Outcome * DB) : Middleware :=
  λ env req db, let '(o, db') := h env req db in (o, (req, db')).

(** [rateLimit({...})]: answers 429 once the window of the limiter is
    exhausted, which the environment decides. *)
Definition rateLimit (name : string) : Middleware :=
  λ env req db,
    if limited env name
    then (Respond 429 (BText "Too many requests, please try again later."), (req, db))
    else (NextOk, (req, db)).

Fixpoint run_chain (chain : list Middleware) (env : Env) (req : Request) (db : DB)
    : Outcome * (Request * DB) :=
  match chain with
  | [] => (NextOk, (req, db))
  | m :: rest =>
      match m env req db with
      | (NextOk, (req', db')) => run_chain rest env req' db'
      | r => r
      end
  end.

Definition Route : Type := Method * list Segment * list Middleware.

Fixpoint dispatch (rs : list Route) (env : Env) (req : Request) (db : DB)
    : Outcome * (Request * DB) :=
  match rs with
  | [] => (NextOk, (req, db))
  | (m, pattern, chain) :: rest =>
      if decide (m = method req) then
        match match_path pattern (path req) with
        | Some ps =>
            match run_chain chain env (set_params ps req) db with
            | (NextOk, (req', db')) => dispatch rest env req' db'
            | r => r
            end
        | None => dispatch rest env req db
        end
      else dispatch rest env req db
  end.

Section routes.
Context {ext : Externals}.
Variable jwtConfig : JwtConfig.

Definition createPostLimiter := rateLimit "postRateLimits.create".
Definition updatePostLimiter := rateLimit "postRateLimits.update".
Definition createCommentLimiter := rateLimit "commentRateLimits.create".
Definition updateCommentLimiter := rateLimit "commentRateLimits.update".
Definition authLimiter := rateLimit "authLimiter".

Definition health : Middleware :=
  λ env req db, (Respond 200 BStatusOk, (req, db)).

(** The routes of the router, in the order they are registered.  The
    two documentation routes, which serve the Swagger pages, are not
    part of the model. *)
Definition routes : list Route :=
  [ (POST, [lit "auth"; lit "signup"],
       [authLimiter; endpoint (authHandlers.signup jwtConfig)]);
    (POST, [lit "auth"; lit "login"],
       [authLimiter; endpoint (authHandlers.login jwtConfig)]);
    (POST, [lit "auth"; lit "admin"],
       [gate (authenticate jwtConfig); gate requireAdmin; authLimiter;
        endpoint authHandlers.createAdmin]);
    (POST, [lit "posts"],
       [gate (authenticate jwtConfig); createPostLimiter; endpoint postHandlers.create]);
    (GET, [lit "posts"],
       [endpoint postHandlers.getMany]);
    (GET, [lit "posts"; param "id"],
       [endpoint postHandlers.getOne]);
    (PATCH, [lit "posts"; param "id"],
       [gate (authenticate jwtConfig); updatePostLimiter; endpoint postHandlers.update]);
    (DELETE, [lit "posts"; param "id"],
       [gate (authenticate jwtConfig); endpoint postHandlers.delete]);
    (POST, [lit "posts"; param "postId"; lit "comments"],
       [gate (authenticate jwtConfig); createCommentLimiter;
        endpoint commentHandlers.create]);
    (GET, [lit "posts"; param "postId"; lit "comments"],
       [endpoint commentHandlers.getByPost]);
    (PATCH, [lit "comments"; param "id"],
       [gate (authenticate jwtConfig); updateCommentLimiter;
        endpoint commentHandlers.update]);
    (DELETE, [lit "comments"; param "id"],
       [gate (authenticate jwtConfig); endpoint commentHandlers.delete]);
    (GET, [lit "health"], [health]) ].

Definition router (env : Env) (req : Request) (db : DB) : Outcome * (Request * DB) :=
  dispatch routes env req db.

End routes.

(** ** The operations the claims speak about *)

Inductive Resource := a_post | a_comment.
Inductive Mutation := m_update | m_delete.

Inductive Op :=
| op_signup | op_login | op_createAdmin
| op_post_create | op_post_update | op_post_delete | op_post_getOne | op_post_getMany
| op_comment_create | op_comment_update | op_comment_delete | op_comment_getByPost
| op_updateUserRole | op_deleteUser.

Section operations.
Context {ext : Externals}.

(** The four handlers that change or remove an owned resource. *)
Definition mutate (r : Resource) (m : Mutation) : Env → Request → DB → Outcome * DB :=
  match r, m with
  | a_post, m_update => postHandlers.update
  | a_post, m_delete => postHandlers.delete
  | a_comment, m_update => commentHandlers.update
  | a_comment, m_delete => commentHandlers.delete
  end.

(** The request body passes the schema of the handler ([delete] reads
    no body). *)
Definition body_accepted (r : Resource) (m : Mutation) (req : Request) : Prop :=
  match r, m with
  | a_post, m_update => is_Some (zod.parse postHandlers.updatePostSchema (body req))
  | a_comment, m_update => is_Some (zod.parse commentHandlers.updateCommentSchema (body req))
  | _, m_delete => True
  end.

(** Every handler of the model, by name. *)
Definition run_op (jwtConfig : JwtConfig) (o : Op)
    : Env → Request → DB → Outcome * DB :=
  match o with
  | op_signup => authHandlers.signup jwtConfig
  | op_login => authHandlers.login jwtConfig
  | op_createAdmin => authHandlers.createAdmin
  | op_post_create => postHandlers.create
  | op_post_update => postHandlers.update
  | op_post_delete => postHandlers.delete
  | op_post_getOne => postHandlers.getOne
  | op_post_getMany => postHandlers.getMany
  | op_comment_create => commentHandlers.create
  | op_comment_update => commentHandlers.update
  | op_comment_delete => commentHandlers.delete
  | op_comment_getByPost => commentHandlers.getByPost
  | op_updateUserRole => userHandlers.updateUserRole
  | op_deleteUser => userHandlers.deleteUser
  end.

End operations.

(** The owner ([userId]) of the resource stored under [id], if any. *)
Definition owner_of (r : Resource) (id : string) (db : DB) : option string :=
  match r with
  | a_post => Post.userId <$> posts db !! id
  | a_comment => Comment.userId <$> comments db !! id
  end.

(** The rule of the handlers: the requester is an admin or the owner. *)
Definition authorized (i : ReqUser) (owner : string) : Prop :=
  ru_role i = admin ∨ owner = ru_id i.

(** What a successful mutation leaves behind. *)
Definition applied (r : Resource) (m : Mutation) (id : string) (req : Request)
    (db : DB) (res : Outcome * DB) : Prop :=
  match m, r with
  | m_delete, _ => res.1 = Respond 204 BEmpty ∧ owner_of r id res.2 = None
  | m_update, a_post =>
      ∃ p p', posts db !! id = Some p ∧ res.1 = Respond 200 (BPost p') ∧
              posts res.2 !! id = Some p' ∧
              Post.title p' = default (Post.title p) (get_str "title" (body req)) ∧
              Post.content p' = default (Post.content p) (get_str "content" (body req))
  | m_update, a_comment =>
      ∃ c', res.1 = Respond 200 (BComment c') ∧ comments res.2 !! id = Some c' ∧
            get_str "content" (body req) = Some (Comment.content c')
  end.

(** No operation reassigns the owner of a row that it keeps. *)
Definition owners_preserved (db db' : DB) : Prop :=
  (∀ id p p', posts db !! id = Some p → posts db' !! id = Some p' →
              Post.userId p' = Post.userId p) ∧
  (∀ id c c', comments db !! id = Some c → comments db' !! id = Some c' →
              Comment.userId c' = Comment.userId c).

(** The post [id] and every comment under it are gone; nothing else moved. *)
Definition post_removed_with_comments (id : string) (db db' : DB) : Prop :=
  posts db' !! id = None ∧
  (∀ cid c, comments db' !! cid = Some c → Comment.postId c ≠ id) ∧
  (∀ pid, pid ≠ id → posts db' !! pid = posts db !! pid) ∧
  (∀ cid c, comments db !! cid = Some c → Comment.postId c ≠ id →
            comments db' !! cid = Some c) ∧
  users db' = users db.

(** The user [id], the posts and the comments of that user are gone. *)
Definition user_removed_with_content (id : string) (db db' : DB) : Prop :=
  users db' !! id = None ∧
  (∀ pid p, posts db' !! pid = Some p → Post.userId p ≠ id) ∧
  (∀ cid c, comments db' !! cid = Some c → Comment.userId c ≠ id) ∧
  (∀ uid, uid ≠ id → users db' !! uid = users db !! uid) ∧
  (∀ pid p, posts db !! pid = Some p → Post.userId p ≠ id → posts db' !! pid = Some p).

(** The injected storage failure falls on one of the steps [0..n] of a
    transaction. *)
Definition fault_within (n : nat) (flt : option nat) : bool :=
  match flt with
  | Some k => (k <=? n)%nat
  | None => false
  end.

(** A request that carries no bearer credential. *)
Definition no_credential (req : Request) : Prop :=
  match authorization req with
  | None => True
  | Some h => split " "%char h !! 1%nat = None ∨ split " "%char h !! 1%nat = Some ""
  end.

(** The routes that create, change or remove a post or a comment, and
    the route that creates an admin. *)
Inductive mutating_route : Method → list string → Prop :=
| mr_post_create : mutating_route POST ["posts"]
| mr_post_update id : mutating_route PATCH ["posts"; id]
| mr_post_delete id : mutating_route DELETE ["posts"; id]
| mr_comment_create postId : mutating_route POST ["posts"; postId; "comments"]
| mr_comment_update id : mutating_route PATCH ["comments"; id]
| mr_comment_delete id : mutating_route DELETE ["comments"; id]
| mr_admin_create : mutating_route POST ["auth"; "admin"].

(** ** A concrete instance of the primitives, and a small store *)

Module Sample.

Fixpoint contains_at (s : string) : bool :=
  match s with
  | EmptyString => false
  | String c s' => Ascii.eqb c "@"%char || contains_at s'
  end.

Definition role_tag (r : UserRole) : string :=
  match r with user => "user" | admin => "admin" end.

#[global] Instance JwtPayload_eq_dec : EqDecision JwtPayload.
Proof. solve_decision. Defined.
#[global] Instance Jwt_eq_dec : EqDecision Jwt.
Proof. solve_decision. Defined.

Definition jwt_to_tuple (t : Jwt) : string * string * bool * Z * Z * string :=
  let p := jwt_payload t in
  (jp_userId p, jp_email p, bool_decide (jp_role p = admin), jp_iat p, jp_exp p,
   jwt_signature t).

Definition tuple_to_jwt (x : string * string * bool * Z * Z * string) : Jwt :=
  let '(uid, e, a, i, x, sg) := x in
  mkJwt (mkJwtPayload uid e (if a then admin else user) i x) sg.

Lemma tuple_to_jwt_to_tuple t : tuple_to_jwt (jwt_to_tuple t) = t.
Proof. by destruct t as [[? ? [] ? ?] ?]. Qed.

#[global] Instance Jwt_countable : Countable Jwt :=
  inj_countable' jwt_to_tuple tuple_to_jwt tuple_to_jwt_to_tuple.

(** A positive number written in binary, lowest bit first. *)
Fixpoint pos_to_bits (p : positive) : string :=
  match p with
  | xH => EmptyString
  | xO p' => String "0"%char (pos_to_bits p')
  | xI p' => String "1"%char (pos_to_bits p')
  end.

Fixpoint bits_to_pos (s : string) : option positive :=
  match s with
  | EmptyString => Some xH
  | String c s' =>
      if Ascii.eqb c "0"%char then xO <$> bits_to_pos s'
      else if Ascii.eqb c "1"%char then xI <$> bits_to_pos s'
      else None
  end.

Lemma bits_to_pos_to_bits p : bits_to_pos (pos_to_bits p) = Some p.
Proof. induction p as [p IH|p IH|]; simpl; by rewrite ?IH. Qed.

Definition serialize (t : Jwt) : string := pos_to_bits (encode t).
Definition parse (s : string) : option Jwt := bits_to_pos s ≫= decode.

Lemma parse_serialize t : parse (serialize t) = Some t.
Proof.
  unfold parse, serialize. rewrite bits_to_pos_to_bits. simpl. apply decode_encode.
Qed.

Definition externals : Externals := {|
  is_email := contains_at;
  is_uuid := λ s, bool_decide (String.length s = 36%nat);
  bcrypt_hash := λ pw, "$2b$12$" ++ pw;
  bcrypt_compare := λ pw h, bool_decide (h = "$2b$12$" ++ pw);
  hmac := λ k p, k ++ "/" ++ jp_userId p ++ "/" ++ jp_email p ++ "/" ++ role_tag (jp_role p);
  jwt_serialize := serialize;
  jwt_parse := parse;
  jwt_parse_serialize := parse_serialize
|}.

Definition jwtConfig : JwtConfig := mkJwtConfig "0123456789abcdef0123456789abcdef" 604800.

Definition env : Env := mkEnv 1700000000000 "id-new" None (λ _, false).

Definition alice : User.t :=
  User.mk "u-alice" "alice@example.com" "$2b$12$password123" "Alice" "Doe" "US"
          user false None 10 10.
Definition bob : User.t :=
  User.mk "u-bob" "bob@example.com" "$2b$12$password123" "Bob" "Roe" "US"
          user false None 20 20.
Definition root : User.t :=
  User.mk "u-root" "root@example.com" "$2b$12$password123" "Root" "Admin" "N/A"
          admin false None 5 5.

Definition p1 : Post.t := Post.mk "p-1" "Hello" "First post" "u-alice" 100 100.
Definition p2 : Post.t := Post.mk "p-2" "Again" "Second post" "u-bob" 200 200.
Definition c1 : Comment.t := Comment.mk "c-1" "Nice" "u-bob" "p-1" 110 110.
Definition c2 : Comment.t := Comment.mk "c-2" "Thanks" "u-alice" "p-1" 120 120.
Definition c3 : Comment.t := Comment.mk "c-3" "Hm" "u-alice" "p-2" 210 210.

Definition db : DB :=
  mkDB (list_to_map [("u-alice", alice); ("u-bob", bob); ("u-root", root)])
       (list_to_map [("p-1", p1); ("p-2", p2)])
       (list_to_map [("c-1", c1); ("c-2", c2); ("c-3", c3)]).

Definition as_user (u : User.t) : option ReqUser :=
  Some (mkReqUser (User.id u) (User.email u) (User.role u)).

(** A request for [/x/:id] made by [who], with a JSON body. *)
Definition request (m : Method) (p : list string) (id : string)
    (who : option ReqUser) (b : list (string * JValue)) : Request :=
  mkRequest m p None {[ "id" := id ]} ∅ (list_to_map b) who.

(** Bob asks to retitle the post of Alice. *)
Definition bob_retitles_p1 : Request :=
  request PATCH ["posts"; "p-1"] "p-1" (as_user bob) [("title", JStr "Mine now")].

(** The admin asks to delete a comment that does not exist. *)
Definition root_deletes_missing_comment : Request :=
  request DELETE ["comments"; "c-404"] "c-404" (as_user root) [].

(** Alice asks to delete her own post. *)
Definition alice_deletes_p1 : Request :=
  request DELETE ["posts"; "p-1"] "p-1" (as_user alice) [].

(** The same surroundings, with the storage failing at step 1. *)
Definition env_failing : Env := mkEnv 1700000000000 "id-new" (Some 1%nat) (λ _, false).

(** The admin asks to delete Alice. *)
Definition root_deletes_alice : Request :=
  request DELETE ["users"; "u-alice"] "u-alice" (as_user root) [].

(** The admin asks to turn its own account into a plain user. *)
Definition root_demotes_itself : Request :=
  request PATCH ["users"; "u-root"; "role"] "u-root" (as_user root)
          [("role", JStr "user")].

(** The admin asks to promote a user that does not exist. *)
Definition root_promotes_missing : Request :=
  request PATCH ["users"; "u-zed"; "role"] "u-zed" (as_user root)
          [("role", JStr "admin")].

(** Requests without [Authorization] header. *)
Definition anonymous_patch : Request :=
  request PATCH ["posts"; "p-1"] "" None [("title", JStr "x")].
Definition anonymous_list : Request :=
  request GET ["posts"] "" None [].

(** Alice retitles her post and names Bob as owner in the same body. *)
Definition alice_reassigns_p1 : Request :=
  request PATCH ["posts"; "p-1"] "p-1" (as_user alice)
          [("title", JStr "Renamed"); ("userId", JStr "u-bob")].

(** A signup whose body asks for the [admin] role. *)
Definition signup_as_admin : Request :=
  request POST ["auth"; "signup"] "" None
          [("email", JStr "zed@example.com"); ("password", JStr "12345678");
           ("firstName", JStr "Zed"); ("lastName", JStr "Zed");
           ("country", JStr "NG"); ("role", JStr "admin")].

End Sample.

(** ** [src/users.ts]: the profile handlers

    [getProfile] and [updateProfile] are members of [userHandlers] in the
    source.  Their payload is represented by the selected row. *)

Module profileHandlers.
Import prisma prisma_write.

(** Columns of [User] that [update] accepts in [data]. *)
Definition user_update_columns : list string :=
  ["email"; "password"; "firstName"; "lastName"; "country"; "role"].

Definition role_or (data : gmap string JValue) (old : UserRole) : option UserRole :=
  match data !! "role" with
  | None => Some old
  | Some (JStr s) => role_of_string s
  | Some _ => None
  end.

(** The row after [prisma.user.update({ data })]: every column named in
    [data] takes the given value, [updatedAt] is refreshed. *)
Definition user_with (env : Env) (data : gmap string JValue) (u : User.t) : option User.t :=
  if negb (keys_within user_update_columns data) then None else
  match str_or "email" data (User.email u), str_or "password" data (User.password u),
        str_or "firstName" data (User.firstName u), str_or "lastName" data (User.lastName u),
        str_or "country" data (User.country u), role_or data (User.role u) with
  | Some e, Some pw, Some fn, Some ln, Some co, Some r =>
      Some (User.mk (User.id u) e pw fn ln co r (User.isVerified u)
                    (User.verificationToken u) (User.createdAt u) (now env))
  | _, _, _, _, _, _ => None
  end.

(** [prisma.user.update({ where: { id }, data })] *)
Definition user_update (env : Env) (id : string) (data : gmap string JValue) (db : DB)
    : Err + (User.t * DB) :=
  match users db !! id with
  | None =>
      if negb (keys_within user_update_columns data) then inl PrismaValidationError
      else inl (PrismaKnownError "P2025")
  | Some u =>
      match user_with env data u with
      | None => inl PrismaValidationError
      | Some u' =>
          if bool_decide (User.email u' ≠ User.email u)
             && bool_decide (is_Some (user_findUnique_email (User.email u') db))
          then inl (PrismaKnownError "P2002")
          else inr (u', set_users (insert id u') db)
      end
  end.

Definition updateProfileSchema : list (string * zod.Field) :=
  [("firstName", zod.str_opt [zod.min 2; zod.max 50]);
   ("lastName", zod.str_opt [zod.min 2; zod.max 50]);
   ("country", zod.str_opt [zod.min 2; zod.max 50]);
   ("currentPassword", zod.str_opt [zod.min 8]);
   ("newPassword", zod.str_opt [zod.min 8])].

(** Truthiness of an optional string: present and not empty. *)
Definition truthy (o : option string) : bool :=
  match o with
  | Some s => negb (bool_decide (s = ""))
  | None => false
  end.

(** The [.refine] of the schema: a new password needs the current one. *)
Definition password_rule (data : gmap string JValue) : bool :=
  if truthy (get_str "newPassword" data) && negb (truthy (get_str "currentPassword" data))
  then false else true.

Section handlers.
Context {ext : Externals}.

Definition getProfile (env : Env) (req : Request) (db : DB) : Outcome * DB :=
  match req_user req with
  | None => (Throw TypeError, db)
  | Some u =>
      match user_findUnique (ru_id u) db with
      | None => (Throw (CustomError_config 404 "User not found"), db)
      | Some row => (Respond 200 (BUser (view_of row)), db)
      end
  end.

(** The [if (updates.newPassword)] block: the stored hash is compared
    with the current password, and [updates.newPassword] becomes the hash
    of the new one. *)
Definition check_password (userId : string) (updates : gmap string JValue) (db : DB)
    : Err + gmap string JValue :=
  match get_str "newPassword" updates with
  | Some new =>
      if bool_decide (new = "") then inr updates
      else
        match user_findUnique userId db, get_str "currentPassword" updates with
        | Some row, Some current =>
            if bcrypt_compare current (User.password row)
            then inr (<["newPassword" := JStr (bcrypt_hash new)]> updates)
            else inl (CustomError_config 400 "Current password is incorrect")
        | Some row, None => inl TypeError
        | None, _ => inl (CustomError_config 400 "Current password is incorrect")
        end
  | None => inr updates
  end.

(** [{ ...profileUpdates, ...(newPassword && { password: newPassword }) }] *)
Definition profile_data (updates : gmap string JValue) : gmap string JValue :=
  let profileUpdates := delete "newPassword" (delete "currentPassword" updates) in
  match get_str "newPassword" updates with
  | Some newPassword =>
      if bool_decide (newPassword = "") then profileUpdates
      else <["password" := JStr newPassword]> profileUpdates
  | None => profileUpdates
  end.

Definition updateProfile (env : Env) (req : Request) (db : DB) : Outcome * DB :=
  match zod.parse updateProfileSchema (body req) with
  | None => (Respond 400 BZodIssues, db)
  | Some updates =>
      if negb (password_rule updates) then (Respond 400 BZodIssues, db)
      else
        match req_user req with
        | None => (Throw TypeError, db)
        | Some u =>
            match check_password (ru_id u) updates db with
            | inl e => (Throw e, db)
            | inr updates' =>
                match user_update env (ru_id u) (profile_data updates') db with
                | inl e => (Throw e, db)
                | inr (updatedUser, db') => (Respond 200 (BUser (view_of updatedUser)), db')
                end
            end
        end
  end.

End handlers.
End profileHandlers.

(** ** [src/app.ts]: the application

    The limiter applied to every request, the router mounted under
    [/api], the health check, the not-found handler and the error
    handler.  The body of the request is taken as already parsed. *)

Definition set_path (p : list string) (req : Request) : Request :=
  mkRequest (method req) p (authorization req) (params req) (query req)
            (body req) (req_user req).

Section app.
Context {ext : Externals}.
Variable jwtConfig : JwtConfig.
Variable production : bool.               (* NODE_ENV === "production" *)

Definition limiter := rateLimit "limiter".

Definition app (env : Env) (req : Request) (db : DB) : Outcome * DB :=
  match limiter env req db with
  | (NextOk, _) =>
      let routed :=
        match path req with
        | "api" :: rest => router jwtConfig env (set_path rest req) db
        | _ => (NextOk, (req, db))
        end in
      match routed with
      | (NextOk, (_, db')) =>
          if bool_decide (method req = GET ∧ path req = ["health"])
          then (Respond 200 BStatusOk, db')
          else (Respond 404 (BError "Not found"), db')
      | (Next err, (_, db')) =>
          let '(status, b) := errorHandler production err in (Respond status b, db')
      | (o, (_, db')) => (o, db')
      end
  | (o, _) => (o, db)
  end.

End app.

(** ** [src/utils.ts]

    A string is read as its sequence of code units, each below 256. *)

Module stringUtils.

Definition code (c : ascii) : nat := nat_of_ascii c.

Definition between (lo hi : nat) (c : ascii) : bool :=
  (lo <=? code c)%nat && (code c <=? hi)%nat.

(** [\s]: tab, line feed, vertical tab, form feed, carriage return,
    space and no-break space. *)
Definition is_space (c : ascii) : bool :=
  between 9 13 c || (code c =? 32)%nat || (code c =? 160)%nat.

(** [\w]: [A-Za-z0-9_]. *)
Definition is_word (c : ascii) : bool :=
  between 65 90 c || between 97 122 c || between 48 57 c || (code c =? 95)%nat.

Definition is_dash (c : ascii) : bool := (code c =? 45)%nat.

(** [toLowerCase] on one code unit: the letters [A-Z] and the capital
    letters of the upper half, [À-Þ] without the multiplication sign. *)
Definition lower (c : ascii) : ascii :=
  if between 65 90 c || (between 192 222 c && negb (code c =? 215)%nat)
  then ascii_of_nat (code c + 32) else c.

(** [.replace(/[^\w\s-]/g, "")] *)
Definition keep_slug_chars (l : list ascii) : list ascii :=
  List.filter (λ c, is_word c || is_space c || is_dash c) l.

(** [[\s_-]] *)
Definition is_separator (c : ascii) : bool :=
  is_space c || (code c =? 95)%nat || is_dash c.

(** [.replace(/[\s_-]+/g, "-")]: every maximal run of separators becomes
    one dash; [in_run] tells that the previous unit was a separator. *)
Fixpoint collapse (in_run : bool) (l : list ascii) : list ascii :=
  match l with
  | [] => []
  | c :: l' =>
      if is_separator c
      then if in_run then collapse true l' else "-"%char :: collapse true l'
      else c :: collapse false l'
  end.

Fixpoint drop_while (f : ascii → bool) (l : list ascii) : list ascii :=
  match l with
  | [] => []
  | c :: l' => if f c then drop_while f l' else l
  end.

(** Remove the units satisfying [f] at both ends. *)
Definition strip (f : ascii → bool) (l : list ascii) : list ascii :=
  rev (drop_while f (rev (drop_while f l))).

Definition slugify_units (l : list ascii) : list ascii :=
  strip is_dash (collapse false (keep_slug_chars (map lower l))).

Definition slugify (text : string) : string :=
  string_of_list_ascii (slugify_units (list_ascii_of_string text)).

(** [text.slice(0, end)]: a negative [end] counts from the end. *)
Definition slice0 (l : list ascii) (e : Z) : list ascii :=
  if e <? 0 then take (Z.to_nat (Z.of_nat (List.length l) + e)) l
  else take (Z.to_nat e) l.

Definition truncate (text : string) (len : Z) : string :=
  if Z.of_nat (String.length text) <=? len then text
  else string_of_list_ascii (slice0 (list_ascii_of_string text) len) ++ "...".

Definition is_angle (c : ascii) : bool := (code c =? 60)%nat || (code c =? 62)%nat.

Definition sanitize_units (l : list ascii) : list ascii :=
  strip is_space (List.filter (λ c, negb (is_angle c)) l).

Definition sanitize (text : string) : string :=
  string_of_list_ascii (sanitize_units (list_ascii_of_string text)).

End stringUtils.

Module paginationUtils.


Definition schema : list (string * zod.Field) :=
  [("page", zod.str_default [zod.regex_digits] "1");
   ("limit", zod.str_default [zod.regex_digits] "10")].

Section with_externals.
Context {ext : Externals}.


End with_externals.



End paginationUtils.

(** ** Requests that carry a token *)

Module Scenario.

(** A token issued for Alice at second 1000, for a week, claiming the
    role [admin]. *)
Definition alice_admin_token : string :=
  jwt.sign (ext := Sample.externals) "u-alice" "alice@example.com" admin
    (secret Sample.jwtConfig) 604800 1000.

(** The surroundings one hour after the issue. *)
Definition env_later : Env := mkEnv 4600000 "id-new" None (λ _, false).

Definition with_bearer (token : string) (req : Request) : Request :=
  mkRequest (method req) (path req) (Some ("Bearer " ++ token)) (params req)
            (query req) (body req) (req_user req).

(** Alice asks to create an admin, presenting that token. *)
Definition alice_creates_admin : Request :=
  with_bearer alice_admin_token
    (Sample.request POST ["auth"; "admin"] "" None
       [("email", JStr "eve@example.com"); ("password", JStr "12345678");
        ("firstName", JStr "Eve"); ("lastName", JStr "Eve")]).

(** A signup and the login that follows it. *)
Definition zed_signs_up : Request :=
  Sample.request POST ["auth"; "signup"] "" None
    [("email", JStr "zed@example.com"); ("password", JStr "12345678");
     ("firstName", JStr "Zed"); ("lastName", JStr "Zed"); ("country", JStr "NG")].

Definition zed_logs_in : Request :=
  Sample.request POST ["auth"; "login"] "" None
    [("email", JStr "zed@example.com"); ("password", JStr "12345678")].

Definition bob_logs_in_badly : Request :=
  Sample.request POST ["auth"; "login"] "" None
    [("email", JStr "bob@example.com"); ("password", JStr "not-the-password")].

(** Alice writes a post, and a comment under the post of Bob. *)
Definition alice_writes_post : Request :=
  Sample.request POST ["posts"] "" (Sample.as_user Sample.alice)
    [("title", JStr "Third"); ("content", JStr "Third post")].

Definition uuid_p2 : string := "00000000-0000-4000-8000-000000000002".
Definition post_of_bob : Post.t := Post.mk uuid_p2 "Again" "Second post" "u-bob" 200 200.

Definition db_uuid : DB :=
  mkDB (users Sample.db) (<[uuid_p2 := post_of_bob]> (posts Sample.db)) (comments Sample.db).

Definition alice_comments : Request :=
  mkRequest POST ["posts"; "p-1"; "comments"] None {[ "postId" := "p-1" ]} ∅
    (list_to_map [("content", JStr "Well said"); ("postId", JStr uuid_p2)])
    (Sample.as_user Sample.alice).

(** The admin promotes Bob; Bob, a plain user, demotes the admin. *)
Definition root_promotes_bob : Request :=
  Sample.request PATCH ["users"; "u-bob"; "role"] "u-bob" (Sample.as_user Sample.root)
    [("role", JStr "admin")].

(** Alice edits her profile, asking for a role and a new password. *)
Definition alice_edits_profile : Request :=
  Sample.request PATCH ["users"; "profile"] "" (Sample.as_user Sample.alice)
    [("firstName", JStr "Al"); ("role", JStr "admin"); ("email", JStr "root@example.com");
     ("newPassword", JStr "newpassword1"); ("currentPassword", JStr "password123")].

(** Listings. *)
Definition list_posts_page (page limit : string) : Request :=
  mkRequest GET ["posts"] None ∅
    (list_to_map [("page", JStr page); ("limit", JStr limit)]) ∅ None.

Definition list_comments_of_p1 (page limit : string) : Request :=
  mkRequest GET ["posts"; "p-1"; "comments"] None {[ "postId" := "p-1" ]}
    (list_to_map [("page", JStr page); ("limit", JStr limit)]) ∅ None.

(** A request for a path that no route serves. *)
Definition get_users : Request :=
  mkRequest GET ["api"; "users"] None ∅ ∅ ∅ None.

(** The surroundings when the limiter of the auth routes is exhausted. *)
Definition env_auth_limited : Env :=
  mkEnv 1700000000000 "id-new" None (λ name, bool_decide (name = "authLimiter")).

End Scenario.


(** ** Predicates of the further properties *)

(** An outcome that the application can turn into an answer: not a
    rejection, not a 500 sent by a handler itself, and no error of the
    [CustomError] class that the error handler knows. *)
Definition plain (e : Err) : Prop :=
  match e with
  | CustomError_types _ _ => False
  | _ => True
  end.

Definition tame (o : Outcome) : Prop :=
  match o with
  | Respond status _ => status ≠ 500
  | NextOk => True
  | Next e => plain e
  | Throw _ => False
  end.

Definition tame_middleware (m : Middleware) : Prop :=
  ∀ env req db, tame (m env req db).1.

(** The units of a slug: [a-z], [0-9] and the dash. *)
Definition slug_unit (c : ascii) : bool :=
  stringUtils.between 97 122 c || stringUtils.between 48 57 c || stringUtils.is_dash c.

(** No two neighbours both satisfy [f]. *)
Definition no_double (f : ascii → bool) (l : list ascii) : Prop :=
  ∀ i c1 c2, l !! i = Some c1 → l !! S i = Some c2 → f c1 = true → f c2 = false.

(** Neither end satisfies [f]. *)
Definition clean_ends (f : ascii → bool) (l : list ascii) : Prop :=
  (∀ c, head l = Some c → f c = false) ∧ (∀ c, last l = Some c → f c = false).

Set Warnings "-clear-no-such-hyp".

(** ** Facts about schema validation *)

Section zod_facts.
Context {ext : Externals}.

Lemma type_ok_JStr t v : zod.type_ok t v = true → ∃ s, v = JStr s.
Proof. destruct t, v; simpl; try discriminate; eauto. Qed.

Lemma parse_field_value f v x :
  zod.parse_field f v = Some (Some x) → ∃ s, x = JStr s.
Proof.
  unfold zod.parse_field. destruct v as [y|].
  - destruct (zod.type_ok (zod.ftype f) y) eqn:E; [|discriminate].
    intros [= <-]. by eapply type_ok_JStr.
  - destruct (zod.presence f); try discriminate.
    destruct (zod.type_ok _ _); [|discriminate]. intros [= <-]. eauto.
Qed.

(** Only declared keys survive, and they hold strings. *)
Lemma parse_lookup schema input m k v :
  zod.parse schema input = Some m → m !! k = Some v →
  k ∈ schema.*1 ∧ ∃ s, v = JStr s.
Proof.
  revert m. induction schema as [|[k' f] rest IH]; intros m; simpl.
  - intros [= <-]. by rewrite lookup_empty.
  - destruct (zod.parse_field f (input !! k')) as [[x|]|] eqn:Ef;
      destruct (zod.parse rest input) as [m'|] eqn:Er; try discriminate;
      intros [= <-].
    + rewrite lookup_insert. case_decide as Hk.
      * subst k'. intros [= <-]. split; [by left|]. by eapply parse_field_value.
      * intros Hv. destruct (IH m' eq_refl Hv) as [? ?]. split; [by right|done].
    + intros Hv. destruct (IH m' eq_refl Hv) as [? ?]. split; [by right|done].
Qed.

(** A declared key without default holds what the input holds. *)
Lemma parse_lookup_declared schema input m k f :
  NoDup schema.*1 → (k, f) ∈ schema →
  (∀ d, zod.presence f ≠ zod.default d) →
  zod.parse schema input = Some m → m !! k = input !! k.
Proof.
  revert m. induction schema as [|[k' f'] rest IH]; intros m Hnd Hin Hp; simpl.
  - by apply elem_of_nil in Hin.
  - simpl in Hnd. apply NoDup_cons in Hnd as [Hk' Hnd].
    destruct (zod.parse_field f' (input !! k')) as [[x|]|] eqn:Ef;
      destruct (zod.parse rest input) as [m'|] eqn:Er; try discriminate;
      intros [= <-].
    + apply elem_of_cons in Hin as [[= -> ->]|Hin].
      * rewrite lookup_insert_eq. unfold zod.parse_field in Ef.
        destruct (input !! k') as [y|].
        -- destruct (zod.type_ok _ _); by simplify_eq.
        -- destruct (zod.presence f') eqn:Ep; try discriminate.
           by destruct (Hp d).
      * rewrite lookup_insert_ne; [by eapply IH|].
        intros ->. apply Hk'. apply list_elem_of_fmap. by exists (k, f).
    + apply elem_of_cons in Hin as [[= -> ->]|Hin]; [|by eapply IH].
      unfold zod.parse_field in Ef. destruct (input !! k') as [y|].
      * destruct (zod.type_ok _ _); discriminate.
      * destruct (m' !! k') as [v|] eqn:Ev; [|done].
        destruct (parse_lookup _ _ _ _ _ Er Ev) as [Hk _]. by destruct Hk'.
Qed.

Lemma keys_within_parse schema input m cols :
  zod.parse schema input = Some m → (∀ k, k ∈ schema.*1 → k ∈ cols) →
  prisma_write.keys_within cols m = true.
Proof.
  intros Hp Hc. apply bool_decide_eq_true. intros k [v Hv]%elem_of_dom.
  apply Hc. by eapply parse_lookup.
Qed.

Lemma str_or_parse schema input m k old :
  zod.parse schema input = Some m →
  prisma_write.str_or k m old = Some (default old (get_str k m)).
Proof.
  intros Hp. unfold prisma_write.str_or, get_str.
  destruct (m !! k) as [v|] eqn:Ev; [|done].
  by destruct (parse_lookup _ _ _ _ _ Hp Ev) as [_ [s ->]].
Qed.

Lemma get_str_absent schema input m k :
  zod.parse schema input = Some m → k ∉ schema.*1 → m !! k = None.
Proof.
  intros Hp Hk. destruct (m !! k) as [v|] eqn:Ev; [|done].
  by destruct (parse_lookup _ _ _ _ _ Hp Ev) as [? _].
Qed.

(** What [prisma.post.update] does with the output of [updatePostSchema]. *)
Lemma post_update_parsed env id input updates db p :
  zod.parse postHandlers.updatePostSchema input = Some updates →
  posts db !! id = Some p →
  let p' := Post.mk (Post.id p)
              (default (Post.title p) (get_str "title" input))
              (default (Post.content p) (get_str "content" input))
              (Post.userId p) (Post.createdAt p) (now env) in
  prisma_write.post_update env id updates db
  = inr (p', prisma.set_posts (insert id p') db).
Proof.
  intros Hp Hl. unfold prisma_write.post_update, prisma_write.post_with.
  rewrite Hl.
  rewrite (keys_within_parse _ _ _ _ Hp); last first.
  { intros k Hk. simpl in Hk. unfold prisma_write.post_columns.
    repeat (apply elem_of_cons in Hk as [->|Hk]); [compute_done..|].
    by apply elem_of_nil in Hk. }
  simpl. rewrite !(str_or_parse _ _ _ _ _ Hp).
  assert (updates !! "userId" = None) as Hu.
  { eapply get_str_absent; [done|]. compute_done. }
  assert (updates !! "title" = input !! "title") as Ht.
  { eapply parse_lookup_declared; [| | |exact Hp].
    - compute_done.
    - apply list_elem_of_here.
    - done. }
  assert (updates !! "content" = input !! "content") as Hc.
  { eapply parse_lookup_declared; [| | |exact Hp].
    - compute_done.
    - apply list_elem_of_further, list_elem_of_here.
    - done. }
  unfold get_str. rewrite Hu, Ht, Hc. simpl. done.
Qed.

Lemma comment_content_parsed input data :
  zod.parse commentHandlers.updateCommentSchema input = Some data →
  ∃ s, get_str "content" data = Some s ∧ get_str "content" input = Some s.
Proof.
  intros Hp.
  assert (data !! "content" = input !! "content") as Hc.
  { eapply parse_lookup_declared; [| | |exact Hp].
    - compute_done.
    - apply list_elem_of_here.
    - done. }
  unfold get_str. rewrite Hc.
  simpl in Hp. unfold zod.parse_field in Hp. simpl in Hp.
  destruct (input !! "content") as [[s| | | |]|]; try discriminate; eauto.
Qed.

End zod_facts.

(** ** Ownership checks of the post and comment handlers *)

Section access_control.
Context {ext : Externals}.

Lemma denied_iff i owner :
  bool_decide (owner ≠ ru_id i) && bool_decide (ru_role i ≠ admin) = true
  ↔ ¬ authorized i owner.
Proof.
  unfold authorized. rewrite andb_true_iff, !bool_decide_eq_true.
  destruct (decide (owner = ru_id i)), (decide (ru_role i = admin)); naive_solver.
Qed.

Lemma owner_of_post id db owner :
  owner_of a_post id db = Some owner ↔
  ∃ p, posts db !! id = Some p ∧ Post.userId p = owner.
Proof.
  unfold owner_of. destruct (posts db !! id) as [p|]; simpl; naive_solver.
Qed.

Lemma owner_of_comment id db owner :
  owner_of a_comment id db = Some owner ↔
  ∃ c, comments db !! id = Some c ∧ Comment.userId c = owner.
Proof.
  unfold owner_of. destruct (comments db !! id) as [c|]; simpl; naive_solver.
Qed.

(** The outcome of each handler on an existing resource, once the body
    has been accepted: 403 exactly when the requester is neither the
    owner nor an admin. *)
Lemma post_update_existing env req db id i p updates :
  params req !! "id" = Some id → req_user req = Some i →
  posts db !! id = Some p →
  zod.parse postHandlers.updatePostSchema (body req) = Some updates →
  postHandlers.update env req db =
    if bool_decide (Post.userId p ≠ ru_id i) && bool_decide (ru_role i ≠ admin)
    then (Respond 403 (BError "Not authorized to update this post"), db)
    else
      let p' := Post.mk (Post.id p)
                  (default (Post.title p) (get_str "title" (body req)))
                  (default (Post.content p) (get_str "content" (body req)))
                  (Post.userId p) (Post.createdAt p) (now env) in
      (Respond 200 (BPost p'), prisma.set_posts (insert id p') db).
Proof.
  intros Hid Hu Hp Hb. unfold postHandlers.update, prisma.post_findUnique.
  rewrite Hb, Hid, Hp, Hu.
  destruct (_ && _); [done|].
  by rewrite (post_update_parsed env id _ _ db p Hb Hp).
Qed.

Lemma post_delete_existing env req db id i p :
  params req !! "id" = Some id → req_user req = Some i →
  posts db !! id = Some p →
  postHandlers.delete env req db =
    if bool_decide (Post.userId p ≠ ru_id i) && bool_decide (ru_role i ≠ admin)
    then (Respond 403 (BError "Not authorized to delete this post"), db)
    else
      match prisma.transaction (fault env)
              [prisma.comment_deleteMany_postId id; prisma.post_delete id] db with
      | (Some e, db') => (Next e, db')
      | (None, db') => (Respond 204 BEmpty, db')
      end.
Proof.
  intros Hid Hu Hp. unfold postHandlers.delete, prisma.post_findUnique.
  by rewrite Hid, Hp, Hu.
Qed.

Lemma comment_update_existing env req db id i c data :
  params req !! "id" = Some id → req_user req = Some i →
  comments db !! id = Some c →
  zod.parse commentHandlers.updateCommentSchema (body req) = Some data →
  ∃ s, get_str "content" (body req) = Some s ∧
  commentHandlers.update env req db =
    if bool_decide (Comment.userId c ≠ ru_id i) && bool_decide (ru_role i ≠ admin)
    then (Respond 403 (BError "Not authorized"), db)
    else
      let c' := Comment.mk (Comment.id c) s (Comment.userId c) (Comment.postId c)
                  (Comment.createdAt c) (now env) in
      (Respond 200 (BComment c'), prisma.set_comments (insert id c') db).
Proof.
  intros Hid Hu Hc Hb.
  destruct (comment_content_parsed _ _ Hb) as (s & Hs & Hs').
  exists s. split; [done|].
  unfold commentHandlers.update, prisma.comment_findUnique.
  rewrite Hb, Hs, Hid, Hc, Hu.
  destruct (_ && _); [done|].
  unfold prisma_write.comment_update. by rewrite Hc.
Qed.

Lemma comment_delete_existing env req db id i c :
  params req !! "id" = Some id → req_user req = Some i →
  comments db !! id = Some c →
  commentHandlers.delete env req db =
    if bool_decide (Comment.userId c ≠ ru_id i) && bool_decide (ru_role i ≠ admin)
    then (Respond 403 (BError "Not authorized"), db)
    else (Respond 204 BEmpty, prisma.set_comments (delete id) db).
Proof.
  intros Hid Hu Hc. unfold commentHandlers.delete, prisma.comment_findUnique.
  rewrite Hid, Hc, Hu. destruct (_ && _); [done|].
  unfold prisma.comment_delete. by rewrite Hc.
Qed.

(** The two statements of the post deletion and the commit are steps
    0, 1 and 2 of the transaction. *)
Lemma post_delete_statements id db p flt :
  posts db !! id = Some p →
  prisma.transaction flt
    [prisma.comment_deleteMany_postId id; prisma.post_delete id] db =
  if fault_within 2 flt
  then (Some StorageFailure, db)
  else (None, mkDB (users db) (delete id (posts db))
                (filter (λ kv, ¬ prisma.comment_of_post id kv)
                   (filter (λ kv, ¬ prisma.comment_of_post id kv) (comments db)))).
Proof.
  intros Hp. unfold prisma.transaction. simpl.
  unfold prisma.post_delete; simpl. rewrite Hp.
  destruct flt as [[|[|[|k]]]|]; simpl; repeat case_decide; simplify_eq; done.
Qed.

End access_control.

Section claims_access.
Context {ext : Externals}.

Lemma filter_not_of_post_lookup id (cs : gmap string Comment.t) cid c :
  filter (λ kv, ¬ prisma.comment_of_post id kv) cs !! cid = Some c ↔
  cs !! cid = Some c ∧ Comment.postId c ≠ id.
Proof. by rewrite map_lookup_filter_Some. Qed.

(** C1. For every update or delete of a post or comment by an
    authenticated identity [i] on an existing resource with owner
    [owner], once the body has passed the schema of the handler: the
    answer is 403 exactly when [i] is neither an admin nor the owner; in
    that case the store is left as it was; otherwise, when the storage
    does not fail, the mutation is applied (200 with the updated row, or
    204 with the row removed). *)
Theorem C1_owner_or_admin (r : Resource) (m : Mutation) env req db id i owner :
  params req !! "id" = Some id →
  req_user req = Some i →
  owner_of r id db = Some owner →
  body_accepted r m req →
  let res := mutate r m env req db in
  (status_of res.1 = Some 403 ↔ ¬ authorized i owner) ∧
  (¬ authorized i owner → res.2 = db) ∧
  (authorized i owner → fault env = None → applied r m id req db res).
Proof.
  intros Hid Hu Ho Hb.
  destruct r, m; simpl in *.
  - apply owner_of_post in Ho as (p & Hp & <-). destruct Hb as [updates Hb].
    rewrite (post_update_existing env req db id i p updates) by done.
    pose proof (denied_iff i (Post.userId p)) as Hd.
    destruct (_ && _) eqn:E; simpl.
    + split_and!; [naive_solver|done|]. intros Ha. by apply Hd in Ha.
    + split_and!; [|naive_solver|].
      * split; [done|]. intros Hn. apply Hd in Hn. done.
      * intros _ _. eexists p, _. split_and!; try done. apply lookup_insert_eq.
  - apply owner_of_post in Ho as (p & Hp & <-).
    rewrite (post_delete_existing env req db id i p) by done.
    pose proof (denied_iff i (Post.userId p)) as Hd.
    destruct (_ && _) eqn:E; simpl.
    + split_and!; [naive_solver|done|]. intros Ha. by apply Hd in Ha.
    + rewrite (post_delete_statements id db p) by done.
      split_and!.
      * split; [|intros Hn; apply Hd in Hn; done].
        by destruct (fault_within 2 (fault env)).
      * naive_solver.
      * intros _ ->. simpl. split; [done|]. by rewrite lookup_delete_eq.
  - apply owner_of_comment in Ho as (c & Hc & <-). destruct Hb as [data Hb].
    destruct (comment_update_existing env req db id i c data) as (s & Hs & ->);
      try done.
    pose proof (denied_iff i (Comment.userId c)) as Hd.
    destruct (_ && _) eqn:E; simpl.
    + split_and!; [naive_solver|done|]. intros Ha. by apply Hd in Ha.
    + split_and!; [|naive_solver|].
      * split; [done|]. intros Hn. apply Hd in Hn. done.
      * intros _ _. eexists. split_and!; try done. apply lookup_insert_eq.
  - apply owner_of_comment in Ho as (c & Hc & <-).
    rewrite (comment_delete_existing env req db id i c) by done.
    pose proof (denied_iff i (Comment.userId c)) as Hd.
    destruct (_ && _) eqn:E; simpl.
    + split_and!; [naive_solver|done|]. intros Ha. by apply Hd in Ha.
    + split_and!; [|naive_solver|].
      * split; [done|]. intros Hn. apply Hd in Hn. done.
      * intros _ _. split; [done|]. by rewrite lookup_delete_eq.
Qed.

(** C3. For every update or delete of a post or comment whose target
    id is not in the store, whoever asks: the answer is never 403, the
    store is left as it was, and the answer is 404 as soon as the body
    has passed the schema of the handler (a body that the schema rejects
    is answered 400, before the store is read). *)
Theorem C3_not_found_before_forbidden (r : Resource) (m : Mutation) env req db id :
  params req !! "id" = Some id →
  owner_of r id db = None →
  let res := mutate r m env req db in
  status_of res.1 ≠ Some 403 ∧
  res.2 = db ∧
  (body_accepted r m req → status_of res.1 = Some 404) ∧
  (¬ body_accepted r m req → status_of res.1 = Some 400).
Proof.
  intros Hid Ho.
  destruct r, m; cbn [mutate body_accepted owner_of] in *.
  - unfold postHandlers.update, prisma.post_findUnique.
    destruct (posts db !! id) as [p|] eqn:Hp; [done|].
    destruct (zod.parse _ _) as [updates|] eqn:Hb; rewrite ?Hid, ?Hp; simpl.
    + split_and!; [done|done|done|]. intros Hn. destruct Hn. eauto.
    + split_and!; [done|done| |done]. by intros [? ?].
  - unfold postHandlers.delete, prisma.post_findUnique.
    destruct (posts db !! id) as [p|] eqn:Hp; [done|].
    rewrite Hid, Hp. simpl. split_and!; [done|done|done|]. by intros [].
  - unfold commentHandlers.update, prisma.comment_findUnique.
    destruct (comments db !! id) as [p|] eqn:Hp; [done|].
    destruct (zod.parse _ _) as [data|] eqn:Hb; simpl.
    + destruct (comment_content_parsed _ _ Hb) as (s & -> & _).
      rewrite Hid, Hp. simpl.
      split_and!; [done|done|done|]. intros Hn. destruct Hn. eauto.
    + split_and!; [done|done| |done]. by intros [? ?].
  - unfold commentHandlers.delete, prisma.comment_findUnique.
    destruct (comments db !! id) as [p|] eqn:Hp; [done|].
    rewrite Hid, Hp. simpl. split_and!; [done|done|done|]. by intros [].
Qed.

(** A body that the schema of an update handler rejects is answered 400
    whoever asks and whatever the target; the store is not read. *)
Lemma update_rejects_invalid_body (r : Resource) env req db :
  ¬ body_accepted r m_update req →
  mutate r m_update env req db = (Respond 400 BZodIssues, db).
Proof.
  destruct r; cbn [mutate body_accepted]; intros Hn.
  - unfold postHandlers.update.
    destruct (zod.parse _ _) as [updates|]; [|done]. destruct Hn. eauto.
  - unfold commentHandlers.update.
    destruct (zod.parse _ _) as [data|]; [|done]. destruct Hn. eauto.
Qed.

End claims_access.

(** Bob, who is not an admin, asks to retitle the post of Alice. *)
Lemma C1_owner_or_admin_witness :
  (status_of (mutate (ext := Sample.externals) a_post m_update Sample.env
                Sample.bob_retitles_p1 Sample.db).1 = Some 403
   ↔ ¬ authorized (mkReqUser "u-bob" "bob@example.com" user) "u-alice") ∧
  (¬ authorized (mkReqUser "u-bob" "bob@example.com" user) "u-alice" →
   (mutate (ext := Sample.externals) a_post m_update Sample.env
      Sample.bob_retitles_p1 Sample.db).2 = Sample.db) ∧
  (authorized (mkReqUser "u-bob" "bob@example.com" user) "u-alice" →
   fault Sample.env = None →
   applied a_post m_update "p-1" Sample.bob_retitles_p1 Sample.db
     (mutate (ext := Sample.externals) a_post m_update Sample.env
        Sample.bob_retitles_p1 Sample.db)).
Proof.
  apply (C1_owner_or_admin (ext := Sample.externals) a_post m_update Sample.env
           Sample.bob_retitles_p1 Sample.db "p-1"
           (mkReqUser "u-bob" "bob@example.com" user) "u-alice").
  - reflexivity.
  - reflexivity.
  - vm_compute. reflexivity.
  - vm_compute. eauto.
Defined.

(** The admin asks to delete a comment that does not exist. *)
Lemma C3_not_found_before_forbidden_witness :
  status_of (mutate (ext := Sample.externals) a_comment m_delete Sample.env
               Sample.root_deletes_missing_comment Sample.db).1 ≠ Some 403 ∧
  (mutate (ext := Sample.externals) a_comment m_delete Sample.env
     Sample.root_deletes_missing_comment Sample.db).2 = Sample.db ∧
  (body_accepted (ext := Sample.externals) a_comment m_delete
     Sample.root_deletes_missing_comment →
   status_of (mutate (ext := Sample.externals) a_comment m_delete Sample.env
                Sample.root_deletes_missing_comment Sample.db).1 = Some 404) ∧
  (¬ body_accepted (ext := Sample.externals) a_comment m_delete
       Sample.root_deletes_missing_comment →
   status_of (mutate (ext := Sample.externals) a_comment m_delete Sample.env
                Sample.root_deletes_missing_comment Sample.db).1 = Some 400).
Proof.
  apply (C3_not_found_before_forbidden (ext := Sample.externals) a_comment m_delete
           Sample.env Sample.root_deletes_missing_comment Sample.db "c-404").
  - reflexivity.
  - vm_compute. reflexivity.
Defined.

(** ** Transactions: deletion of a post, deletion of a user *)

Section claims_transactions.
Context {ext : Externals}.

(** The three statements of the user deletion and the commit are steps
    0 to 3 of the transaction. *)
Lemma user_delete_statements id db flt :
  prisma.transaction flt
    [prisma.comment_deleteMany_userId id; prisma.post_deleteMany_userId id;
     prisma.user_delete id] db =
  if fault_within 2 flt then (Some StorageFailure, db)
  else match users db !! id with
       | None => (Some (PrismaKnownError "P2025"), db)
       | Some _ =>
           if fault_within 3 flt then (Some StorageFailure, db)
           else
             let ps := filter (λ kv, ¬ prisma.post_of_user id kv) (posts db) in
             let cs := filter (λ kv, ¬ prisma.comment_under_user_post (posts db) id kv)
                         (filter (λ kv, ¬ prisma.comment_of_user id kv) (comments db)) in
             (None,
              mkDB (delete id (users db))
                   (filter (λ kv, ¬ prisma.post_of_user id kv) ps)
                   (filter (λ kv, ¬ prisma.comment_of_user id kv ∧
                                  ¬ prisma.comment_under_user_post ps id kv) cs))
       end.
Proof.
  unfold prisma.transaction. simpl. unfold prisma.user_delete; simpl.
  destruct flt as [[|[|[|[|k]]]]|]; simpl; repeat case_decide; simplify_eq;
    try done; by destruct (users db !! id).
Qed.

(** C5. For every post [p] and every requester allowed to delete it:
    the handler either answers 204 with [p] and every comment under [p]
    removed (and nothing else touched), or passes a storage failure on
    and leaves the store exactly as it was.  The first happens when the
    storage does not fail, the second when it fails at any step of the
    transaction, the commit included. *)
Theorem C5_post_delete_atomic env req db id i p :
  params req !! "id" = Some id →
  req_user req = Some i →
  posts db !! id = Some p →
  authorized i (Post.userId p) →
  let res := postHandlers.delete env req db in
  (res = (Next StorageFailure, db) ∨
   (res.1 = Respond 204 BEmpty ∧ post_removed_with_comments id db res.2)) ∧
  (fault_within 2 (fault env) = false →
   res.1 = Respond 204 BEmpty ∧ post_removed_with_comments id db res.2) ∧
  (fault_within 2 (fault env) = true → res = (Next StorageFailure, db)).
Proof.
  intros Hid Hu Hp Ha. simpl.
  rewrite (post_delete_existing env req db id i p) by done.
  destruct (_ && _) eqn:E; [by apply denied_iff in E|].
  rewrite (post_delete_statements id db p) by done.
  destruct (fault_within 2 (fault env)); simpl.
  { split_and!; [by left|done|done]. }
  assert (post_removed_with_comments id db
            (mkDB (users db) (delete id (posts db))
               (filter (λ kv, ¬ prisma.comment_of_post id kv)
                  (filter (λ kv, ¬ prisma.comment_of_post id kv) (comments db)))))
    as Hrm.
  { unfold post_removed_with_comments; simpl. split_and!.
    - apply lookup_delete_eq.
    - intros cid c [_ Hc]%filter_not_of_post_lookup. done.
    - intros pid Hne. by apply lookup_delete_ne.
    - intros cid c Hc Hne. by rewrite !filter_not_of_post_lookup.
    - done. }
  split_and!; [by right|done|done].
Qed.

(** C10. For every deletion of a user [id] asked by somebody else:
    the handler either answers 204 with the user, the posts of the user
    and the comments of the user removed, or rejects and leaves the
    store exactly as it was.  The first happens when the user exists and
    the storage does not fail; the second when the storage fails at any
    step of the transaction or the user does not exist. *)
Theorem C10_user_delete_atomic env req db id i :
  params req !! "id" = Some id →
  req_user req = Some i →
  id ≠ ru_id i →
  let res := userHandlers.deleteUser env req db in
  ((∃ e, res = (Throw e, db)) ∨
   (res.1 = Respond 204 BEmpty ∧ user_removed_with_content id db res.2)) ∧
  (fault_within 3 (fault env) = false → is_Some (users db !! id) →
   res.1 = Respond 204 BEmpty ∧ user_removed_with_content id db res.2) ∧
  (fault_within 3 (fault env) = true ∨ users db !! id = None →
   ∃ e, res = (Throw e, db)).
Proof.
  intros Hid Hu Hne. simpl. unfold userHandlers.deleteUser.
  rewrite Hu, Hid. rewrite bool_decide_eq_false_2 by congruence.
  rewrite user_delete_statements.
  assert (fault_within 2 (fault env) = true → fault_within 3 (fault env) = true) as H23.
  { destruct (fault env) as [k|]; simpl; [|done].
    rewrite !Nat.leb_le. lia. }
  destruct (fault_within 2 (fault env)) eqn:E2.
  { rewrite (H23 eq_refl). split_and!; [left; eauto|done|eauto]. }
  destruct (users db !! id) as [u|] eqn:Eu.
  2:{ split_and!; [left; eauto| |eauto]. by intros _ [? ?]. }
  destruct (fault_within 3 (fault env)) eqn:E3.
  { split_and!; [left; eauto|done|eauto]. }
  simpl.
  match goal with |- context [user_removed_with_content id db ?d] =>
    assert (user_removed_with_content id db d) as Hrm end.
  { unfold user_removed_with_content; simpl. split_and!.
    - apply lookup_delete_eq.
    - intros pid q [_ Hq]%map_lookup_filter_Some. done.
    - intros cid c [_ [Hc _]]%map_lookup_filter_Some. done.
    - intros uid Hn. by apply lookup_delete_ne.
    - intros pid q Hq Hn. by rewrite !map_lookup_filter_Some. }
  split_and!; [by right|done|]. intros [?|?]; done.
Qed.

End claims_transactions.

(** Alice deletes her own post while the storage fails at the second
    statement of the transaction. *)
Lemma C5_post_delete_atomic_witness :
  (postHandlers.delete Sample.env_failing Sample.alice_deletes_p1 Sample.db
   = (Next StorageFailure, Sample.db) ∨
   ((postHandlers.delete Sample.env_failing Sample.alice_deletes_p1 Sample.db).1
    = Respond 204 BEmpty ∧
    post_removed_with_comments "p-1" Sample.db
      (postHandlers.delete Sample.env_failing Sample.alice_deletes_p1 Sample.db).2)) ∧
  (fault_within 2 (fault Sample.env_failing) = false →
   (postHandlers.delete Sample.env_failing Sample.alice_deletes_p1 Sample.db).1
   = Respond 204 BEmpty ∧
   post_removed_with_comments "p-1" Sample.db
     (postHandlers.delete Sample.env_failing Sample.alice_deletes_p1 Sample.db).2) ∧
  (fault_within 2 (fault Sample.env_failing) = true →
   postHandlers.delete Sample.env_failing Sample.alice_deletes_p1 Sample.db
   = (Next StorageFailure, Sample.db)).
Proof.
  apply (C5_post_delete_atomic Sample.env_failing Sample.alice_deletes_p1 Sample.db "p-1"
           (mkReqUser "u-alice" "alice@example.com" user) Sample.p1).
  - reflexivity.
  - reflexivity.
  - vm_compute. reflexivity.
  - right. reflexivity.
Defined.

(** The admin deletes Alice. *)
Lemma C10_user_delete_atomic_witness :
  ((∃ e, userHandlers.deleteUser Sample.env Sample.root_deletes_alice Sample.db
         = (Throw e, Sample.db)) ∨
   ((userHandlers.deleteUser Sample.env Sample.root_deletes_alice Sample.db).1
    = Respond 204 BEmpty ∧
    user_removed_with_content "u-alice" Sample.db
      (userHandlers.deleteUser Sample.env Sample.root_deletes_alice Sample.db).2)) ∧
  (fault_within 3 (fault Sample.env) = false → is_Some (users Sample.db !! "u-alice") →
   (userHandlers.deleteUser Sample.env Sample.root_deletes_alice Sample.db).1
   = Respond 204 BEmpty ∧
   user_removed_with_content "u-alice" Sample.db
     (userHandlers.deleteUser Sample.env Sample.root_deletes_alice Sample.db).2) ∧
  (fault_within 3 (fault Sample.env) = true ∨ users Sample.db !! "u-alice" = None →
   ∃ e, userHandlers.deleteUser Sample.env Sample.root_deletes_alice Sample.db
        = (Throw e, Sample.db)).
Proof.
  apply (C10_user_delete_atomic Sample.env Sample.root_deletes_alice Sample.db "u-alice"
           (mkReqUser "u-root" "root@example.com" admin)).
  - reflexivity.
  - reflexivity.
  - discriminate.
Defined.

(** ** The admin user-management handlers *)

Section claims_users.
Context {ext : Externals}.

Lemma role_parsed input data :
  zod.parse userHandlers.roleSchema input = Some data →
  ∃ r, get_str "role" data ≫= role_of_string = Some r.
Proof.
  unfold zod.parse, userHandlers.roleSchema, zod.parse_field. simpl.
  destruct (input !! "role") as [[s| | | |]|]; simpl; try discriminate.
  case_bool_decide as Hs; [|discriminate]. intros [= <-].
  unfold get_str. rewrite lookup_insert_eq. simpl.
  apply elem_of_cons in Hs as [->|Hs]; [by exists user|].
  apply elem_of_cons in Hs as [->|Hs]; [by exists admin|].
  by apply elem_of_nil in Hs.
Qed.

(** C2. For every identity [i], whatever its role: asking the user
    management handlers to change the role of [i]'s own account, or to
    delete it, is rejected (the handler throws: [CustomError] 400, or
    the validation error of a malformed body for the role change) and
    the store is left as it was. *)
Theorem C2_self_mutation_guard env req db i :
  req_user req = Some i →
  params req !! "id" = Some (ru_id i) →
  (let res := userHandlers.updateUserRole env req db in
   res.2 = db ∧
   (res.1 = Throw (CustomError_config 400 "Cannot update your own role") ∨
    res.1 = Throw ZodError) ∧
   (is_Some (zod.parse userHandlers.roleSchema (body req)) →
    res.1 = Throw (CustomError_config 400 "Cannot update your own role"))) ∧
  userHandlers.deleteUser env req db =
    (Throw (CustomError_config 400 "Cannot delete your own account"), db).
Proof.
  intros Hu Hid. split.
  - cbn zeta. unfold userHandlers.updateUserRole.
    destruct (zod.parse _ _) as [data|] eqn:Hb.
    + rewrite Hu, Hid, bool_decide_eq_true_2 by done. simpl. eauto.
    + simpl. split_and!; [done|by right|]. by intros [? ?].
  - unfold userHandlers.deleteUser.
    by rewrite Hu, Hid, bool_decide_eq_true_2.
Qed.

(** What the two handlers do when the target user is not in the store:
    the store raises P2025, which is thrown on; no 404 is produced. *)
Lemma user_management_missing_target env req db i id :
  req_user req = Some i →
  params req !! "id" = Some id →
  id ≠ ru_id i →
  users db !! id = None →
  (is_Some (zod.parse userHandlers.roleSchema (body req)) →
   userHandlers.updateUserRole env req db = (Throw (PrismaKnownError "P2025"), db)) ∧
  (fault_within 2 (fault env) = false →
   userHandlers.deleteUser env req db = (Throw (PrismaKnownError "P2025"), db)).
Proof.
  intros Hu Hid Hne Hn. split.
  - intros [data Hb]. unfold userHandlers.updateUserRole.
    rewrite Hb, Hu, Hid. rewrite bool_decide_eq_false_2 by congruence.
    destruct (role_parsed _ _ Hb) as [r ->].
    unfold prisma_write.user_update_role. by rewrite Hn.
  - intros Hf. unfold userHandlers.deleteUser.
    rewrite Hu, Hid. rewrite bool_decide_eq_false_2 by congruence.
    by rewrite user_delete_statements, Hf, Hn.
Qed.

End claims_users.

(** The admin asks to turn its own account into a plain user, and to
    delete it. *)
Lemma C2_self_mutation_guard_witness :
  ((userHandlers.updateUserRole (ext := Sample.externals) Sample.env
      Sample.root_demotes_itself Sample.db).2 = Sample.db ∧
   ((userHandlers.updateUserRole (ext := Sample.externals) Sample.env
       Sample.root_demotes_itself Sample.db).1
    = Throw (CustomError_config 400 "Cannot update your own role") ∨
    (userHandlers.updateUserRole (ext := Sample.externals) Sample.env
       Sample.root_demotes_itself Sample.db).1 = Throw ZodError) ∧
   (is_Some (zod.parse (ext := Sample.externals) userHandlers.roleSchema
               (body Sample.root_demotes_itself)) →
    (userHandlers.updateUserRole (ext := Sample.externals) Sample.env
       Sample.root_demotes_itself Sample.db).1
    = Throw (CustomError_config 400 "Cannot update your own role"))) ∧
  userHandlers.deleteUser Sample.env Sample.root_demotes_itself Sample.db =
    (Throw (CustomError_config 400 "Cannot delete your own account"), Sample.db).
Proof.
  apply (C2_self_mutation_guard (ext := Sample.externals) Sample.env
           Sample.root_demotes_itself Sample.db
           (mkReqUser "u-root" "root@example.com" admin)).
  - reflexivity.
  - reflexivity.
Defined.

(** C4. The specification asks for NotFound when the target user does
    not exist.  On the store of the example, where no user has the id
    ["u-zed"], the admin's role change and the admin's deletion both end
    with the P2025 error of the store thrown out of the handler, which
    the error handler answers with 500; neither is a 404. *)
Theorem C4_missing_user_is_not_NotFound :
  users Sample.db !! "u-zed" = None ∧
  userHandlers.updateUserRole (ext := Sample.externals) Sample.env
    Sample.root_promotes_missing Sample.db
    = (Throw (PrismaKnownError "P2025"), Sample.db) ∧
  userHandlers.deleteUser Sample.env Sample.root_promotes_missing Sample.db
    = (Throw (PrismaKnownError "P2025"), Sample.db) ∧
  (∀ production, (errorHandler production (PrismaKnownError "P2025")).1 = 500).
Proof.
  destruct (user_management_missing_target (ext := Sample.externals) Sample.env
              Sample.root_promotes_missing Sample.db
              (mkReqUser "u-root" "root@example.com" admin) "u-zed")
    as [Hrole Hdel]; [reflexivity|reflexivity|discriminate|by vm_compute|].
  split_and!.
  - by vm_compute.
  - apply Hrole. vm_compute. eauto.
  - by apply Hdel.
  - by intros [].
Qed.

(** ** Tokens and the authentication gate *)

Section claims_tokens.
Context {ext : Externals}.

(** C7. For every identity [{id, email, role}], every secret, every
    time-to-live and every instant of issue: at any current time
    strictly before the embedded expiry, verifying the issued token
    succeeds and returns exactly the claims that were signed. *)
Theorem C7_verify_after_issue userId email (role : UserRole) secretOrKey ttl issued clock :
  clock < issued + ttl →
  jwt.verify (jwt.sign userId email role secretOrKey ttl issued) secretOrKey clock
  = inr (mkJwtPayload userId email role issued (issued + ttl)).
Proof.
  intros Hlt. unfold jwt.verify, jwt.sign.
  rewrite jwt_parse_serialize. simpl.
  rewrite bool_decide_eq_true_2 by done.
  rewrite bool_decide_eq_false_2 by lia. done.
Qed.

(** The token [login] hands out is the one issued for the stored user,
    so it verifies to that user's id, email and role until it expires. *)
Lemma login_token_verifies jwtConfig env req db v token db' clock :
  authHandlers.login jwtConfig env req db = (Respond 200 (BAuth v token), db') →
  clock < seconds env + expiresIn jwtConfig →
  ∃ p, jwt.verify token (secret jwtConfig) clock = inr p ∧
       jp_userId p = uv_id v ∧ jp_email p = uv_email v ∧ jp_role p = uv_role v.
Proof.
  unfold authHandlers.login. intros Hl Hc.
  repeat case_match; simplify_eq.
  eexists. split.
  - unfold jwt.verify, jwt.sign. rewrite jwt_parse_serialize. simpl.
    rewrite bool_decide_eq_true_2 by done.
    by rewrite bool_decide_eq_false_2 by lia.
  - done.
Qed.

Lemma no_credential_token req :
  no_credential req → bearer_token req = None ∨ bearer_token req = Some "".
Proof.
  unfold no_credential, bearer_token. destruct (authorization req); naive_solver.
Qed.

(** Without a credential the gate answers 401 and does not call [next]. *)
Lemma authenticate_no_credential jwtConfig env req db :
  no_credential req →
  authenticate jwtConfig env req db
  = (Respond 401 (BError "Authentication required"), req).
Proof.
  intros [Hn|Hn]%no_credential_token; unfold authenticate; by rewrite Hn.
Qed.

(** *** Stepping through the router *)

Lemma dispatch_miss m pattern chain rest env req db :
  m ≠ method req ∨ match_path pattern (path req) = None →
  dispatch ((m, pattern, chain) :: rest) env req db = dispatch rest env req db.
Proof.
  intros [Hm|Hp]; simpl; case_decide; try done. by rewrite Hp.
Qed.

Lemma dispatch_hit m pattern chain rest env req db ps :
  m = method req → match_path pattern (path req) = Some ps →
  dispatch ((m, pattern, chain) :: rest) env req db =
  match run_chain chain env (set_params ps req) db with
  | (NextOk, (req', db')) => dispatch rest env req' db'
  | r => r
  end.
Proof. intros Hm Hp. simpl. case_decide; [|done]. by rewrite Hp. Qed.

Lemma run_chain_gate_answers f rest env req db s b req' :
  f env req db = (Respond s b, req') →
  run_chain (gate f :: rest) env req db = (Respond s b, (req', db)).
Proof. intros Hf. simpl. unfold gate. by rewrite Hf. Qed.

Lemma run_chain_endpoint h env req db :
  run_chain [endpoint h] env req db = endpoint h env req db.
Proof. simpl. unfold endpoint. by destruct (h env req db) as [[] ?]. Qed.

Lemma getMany_answers env req db : (postHandlers.getMany env req db).1 ≠ NextOk.
Proof. unfold postHandlers.getMany. by repeat case_match. Qed.

Lemma getOne_answers env req db : (postHandlers.getOne env req db).1 ≠ NextOk.
Proof. unfold postHandlers.getOne. by repeat case_match. Qed.

Lemma getByPost_answers env req db : (commentHandlers.getByPost env req db).1 ≠ NextOk.
Proof. unfold commentHandlers.getByPost. by repeat case_match. Qed.

(** A route whose chain is one handler that always answers. *)
Lemma dispatch_endpoint m pattern h rest env req db ps :
  m = method req → match_path pattern (path req) = Some ps →
  (∀ env req db, (h env req db).1 ≠ NextOk) →
  dispatch ((m, pattern, [endpoint h]) :: rest) env req db
  = endpoint h env (set_params ps req) db.
Proof.
  intros Hm Hp Hh. rewrite (dispatch_hit _ _ _ _ _ _ _ ps) by done.
  rewrite run_chain_endpoint. unfold endpoint.
  specialize (Hh env (set_params ps req) db).
  by destruct (h env (set_params ps req) db) as [[] ?].
Qed.

(** A route whose chain starts with the gate, taken without credential. *)
Lemma dispatch_gated jwtConfig m pattern chain rest env req db ps :
  m = method req → match_path pattern (path req) = Some ps →
  no_credential req →
  dispatch ((m, pattern, gate (authenticate jwtConfig) :: chain) :: rest) env req db
  = (Respond 401 (BError "Authentication required"), (set_params ps req, db)).
Proof.
  intros Hm Hp Hn. rewrite (dispatch_hit _ _ _ _ _ _ _ ps) by done.
  by rewrite (run_chain_gate_answers _ _ _ _ _ 401
                (BError "Authentication required") (set_params ps req))
    by (by apply authenticate_no_credential).
Qed.

Ltac skip_route Hm Hp :=
  rewrite dispatch_miss
    by (rewrite <- ?Hm, <- ?Hp; first [left; discriminate | right; reflexivity]).

(** C6, as amended. For every request that carries no bearer
    credential: the gate [authenticate] itself never lets it through, it
    answers 401; every route that creates, changes or removes a post or
    a comment (and the route that creates an admin) is mounted behind
    the gate, so the router answers 401 and the store is left as it
    was; the listing and detail routes are
    mounted without the gate, so the router hands the request, with no
    identity attached, straight to the handler, which answers 200 for an
    existing post and for a listing with the default query. *)
Theorem C6_reads_ungated_mutations_gated jwtConfig env req db :
  no_credential req →
  authenticate jwtConfig env req db
    = (Respond 401 (BError "Authentication required"), req) ∧
  (mutating_route (method req) (path req) →
   (router jwtConfig env req db).1 = Respond 401 (BError "Authentication required") ∧
   (router jwtConfig env req db).2.2 = db) ∧
  (GET = method req → ["posts"] = path req →
   router jwtConfig env req db = endpoint postHandlers.getMany env (set_params ∅ req) db ∧
   (query req = ∅ → status_of (router jwtConfig env req db).1 = Some 200)) ∧
  (∀ id, GET = method req → ["posts"; id] = path req →
   router jwtConfig env req db
     = endpoint postHandlers.getOne env (set_params {[ "id" := id ]} req) db ∧
   (∀ p, posts db !! id = Some p →
         (router jwtConfig env req db).1 = Respond 200 (BPost p))) ∧
  (∀ postId, GET = method req → ["posts"; postId; "comments"] = path req →
   router jwtConfig env req db
     = endpoint commentHandlers.getByPost env (set_params {[ "postId" := postId ]} req) db ∧
   (query req = ∅ → is_Some (posts db !! postId) →
    status_of (router jwtConfig env req db).1 = Some 200)).
Proof.
  intros Hn. split; [by apply authenticate_no_credential|].
  split_and!.
  - intros Hr. unfold router, routes.
    inversion Hr as [Hm Hp|id Hm Hp|id Hm Hp|pid Hm Hp|id Hm Hp|id Hm Hp|Hm Hp];
      repeat skip_route Hm Hp;
      by erewrite dispatch_gated by (rewrite <- ?Hp; done).
  - intros Hm Hp. unfold router, routes. repeat skip_route Hm Hp.
    rewrite (dispatch_endpoint _ _ _ _ _ _ _ ∅)
      by (rewrite <- ?Hp; first [done | apply getMany_answers]).
    split; [done|]. intros Hq.
    unfold endpoint, postHandlers.getMany. cbn [query set_params]. rewrite Hq.
    by vm_compute.
  - intros id Hm Hp. unfold router, routes. repeat skip_route Hm Hp.
    rewrite (dispatch_endpoint _ _ _ _ _ _ _ {[ "id" := id ]})
      by (rewrite <- ?Hp; first [done | apply getOne_answers]).
    split; [done|]. intros p Hl.
    unfold endpoint, postHandlers.getOne, prisma.post_findUnique.
    cbn [params set_params]. rewrite lookup_singleton_eq. by rewrite Hl.
  - intros pid Hm Hp. unfold router, routes. repeat skip_route Hm Hp.
    rewrite (dispatch_endpoint _ _ _ _ _ _ _ {[ "postId" := pid ]})
      by (rewrite <- ?Hp; first [done | apply getByPost_answers]).
    split; [done|]. intros Hq [p Hl].
    unfold endpoint, commentHandlers.getByPost, prisma.post_findUnique.
    cbn [params query set_params]. rewrite Hq, lookup_singleton_eq.
    replace (commentHandlers.paginationSchema ∅) with (Some (1, 10)) by by vm_compute.
    by rewrite Hl.
Qed.

End claims_tokens.

(** A request without [Authorization] header for [PATCH /posts/p-1]. *)
Lemma C6_reads_ungated_mutations_gated_witness :
  no_credential Sample.anonymous_patch ∧
  (router (ext := Sample.externals) Sample.jwtConfig Sample.env
     Sample.anonymous_patch Sample.db).1
    = Respond 401 (BError "Authentication required") ∧
  (router (ext := Sample.externals) Sample.jwtConfig Sample.env
     Sample.anonymous_patch Sample.db).2.2 = Sample.db.
Proof.
  assert (no_credential Sample.anonymous_patch) as Hn by exact I.
  split; [exact Hn|].
  destruct (C6_reads_ungated_mutations_gated (ext := Sample.externals)
              Sample.jwtConfig Sample.env Sample.anonymous_patch Sample.db Hn)
    as (_ & Hmut & _).
  apply Hmut. apply (mr_post_update "p-1").
Defined.

(** C6, as stated, fails: on a request without credential the gate does
    not call [next] with an empty identity, it answers 401. *)
Lemma C6_gate_proceeds_as_anonymous_counterexample :
  no_credential Sample.anonymous_list ∧
  authenticate (ext := Sample.externals) Sample.jwtConfig Sample.env
    Sample.anonymous_list Sample.db
    = (Respond 401 (BError "Authentication required"), Sample.anonymous_list) ∧
  ¬ (∀ env req db,
       no_credential req →
       authenticate (ext := Sample.externals) Sample.jwtConfig env req db
       = (NextOk, set_user None req)).
Proof.
  split_and!; [exact I|reflexivity|].
  intros Hall.
  specialize (Hall Sample.env Sample.anonymous_list Sample.db I). discriminate Hall.
Qed.

(** A token issued at second 1000 for a week, checked one hour later. *)
Lemma C7_verify_after_issue_witness :
  4600 < 1000 + 604800 ∧
  jwt.verify (ext := Sample.externals)
    (jwt.sign (ext := Sample.externals) "u-alice" "alice@example.com" user
       "0123456789abcdef0123456789abcdef" 604800 1000)
    "0123456789abcdef0123456789abcdef" 4600
  = inr (mkJwtPayload "u-alice" "alice@example.com" user 1000 (1000 + 604800)).
Proof.
  split; [lia|].
  apply (C7_verify_after_issue (ext := Sample.externals)). lia.
Defined.

(** ** Signup *)

Section claims_signup.
Context {ext : Externals}.

Lemma user_create_inv env data db u db' :
  prisma_write.user_create env data db = inr (u, db') →
  prisma_write.user_of_data env data = Some u ∧
  users db !! User.id u = None ∧
  db' = prisma.set_users (insert (User.id u) u) db.
Proof.
  unfold prisma_write.user_create.
  destruct (prisma_write.user_of_data env data) as [u0|]; [|discriminate].
  repeat case_bool_decide; try discriminate. intros [= -> <-].
  split_and!; [done| |done].
  destruct (users db !! User.id u) eqn:E; [|done]. exfalso; eauto.
Qed.

Lemma user_of_data_role env data u r :
  prisma_write.user_of_data env data = Some u →
  data !! "role" = Some (JStr r) →
  role_of_string r = Some (User.role u).
Proof.
  unfold prisma_write.user_of_data. intros Hu Hr. rewrite Hr in Hu.
  repeat case_match; simplify_eq; done.
Qed.

(** C9. Whatever the request body holds: the users of the store after
    [signup] are the users before it plus at most one new row, and that
    row has role [user]; when the handler answers 201, the row it
    reports is that new row.  The validated object carries no [role]
    key, and [role: "user"] is written over whatever the object holds. *)
Theorem C9_signup_role_is_user jwtConfig env req db :
  let res := authHandlers.signup jwtConfig env req db in
  (∀ id u, users res.2 !! id = Some u → users db !! id = Some u ∨ User.role u = user) ∧
  (status_of res.1 = Some 201 →
   ∃ u token, res.1 = Respond 201 (BAuth (view_of u) token) ∧
              User.role u = user ∧
              users db !! User.id u = None ∧
              res.2 = prisma.set_users (insert (User.id u) u) db) ∧
  (∀ data, zod.parse authHandlers.signupSchema (body req) = Some data → data !! "role" = None).
Proof.
  cbn zeta. split_and!.
  - intros id u. unfold authHandlers.signup.
    destruct (zod.parse authHandlers.signupSchema (body req)) as [data|]; [|by left].
    destruct (get_str "email" data); [|by left].
    destruct (get_str "password" data); [|by left].
    destruct (prisma.user_findUnique_email _ _); [by left|].
    destruct (prisma_write.user_create _ _ _) as [e|[u' db']] eqn:Ec; [by left|].
    apply user_create_inv in Ec as (Hu' & Hfresh & ->). simpl.
    rewrite lookup_insert. case_decide as Hk; [|by left].
    intros [= <-]. right.
    pose proof (user_of_data_role _ _ _ "user" Hu' (lookup_insert_eq _ _ _)) as Hr.
    by injection Hr.
  - unfold authHandlers.signup.
    destruct (zod.parse authHandlers.signupSchema (body req)) as [data|]; [|done].
    destruct (get_str "email" data); [|done].
    destruct (get_str "password" data); [|done].
    destruct (prisma.user_findUnique_email _ _); [done|].
    destruct (prisma_write.user_create _ _ _) as [e|[u' db']] eqn:Ec; [done|].
    apply user_create_inv in Ec as (Hu' & Hfresh & ->). simpl. intros _.
    pose proof (user_of_data_role _ _ _ "user" Hu' (lookup_insert_eq _ _ _)) as Hr.
    injection Hr as Hr. eauto 10.
  - intros data Hp. eapply get_str_absent; [done|]. compute_done.
Qed.

End claims_signup.

(** ** Ownership is never reassigned *)

Section claims_ownership.
Context {ext : Externals}.

Lemma owners_preserved_refl db : owners_preserved db db.
Proof. split; intros; by simplify_eq. Qed.

(** A store whose posts and comments are among the previous ones. *)
Lemma owners_preserved_shrink db db' :
  (∀ k v, posts db' !! k = Some v → posts db !! k = Some v) →
  (∀ k v, comments db' !! k = Some v → comments db !! k = Some v) →
  owners_preserved db db'.
Proof.
  intros Hp Hc. split.
  - intros id p p' H1 H2. apply Hp in H2. by simplify_eq.
  - intros id c c' H1 H2. apply Hc in H2. by simplify_eq.
Qed.

Lemma owners_preserved_users db f : owners_preserved db (prisma.set_users f db).
Proof. by apply owners_preserved_shrink. Qed.

Lemma owners_preserved_post_new db k p :
  posts db !! k = None → owners_preserved db (prisma.set_posts (insert k p) db).
Proof.
  intros Hk. split; simpl; [|intros; by simplify_eq].
  intros id q q' H1. rewrite lookup_insert. case_decide; intros; by simplify_eq.
Qed.

Lemma owners_preserved_post_same db k p p' :
  posts db !! k = Some p → Post.userId p' = Post.userId p →
  owners_preserved db (prisma.set_posts (insert k p') db).
Proof.
  intros Hk Ho. split; simpl; [|intros; by simplify_eq].
  intros id q q' H1. rewrite lookup_insert. case_decide; intros; by simplify_eq.
Qed.

Lemma owners_preserved_comment_new db k c :
  comments db !! k = None → owners_preserved db (prisma.set_comments (insert k c) db).
Proof.
  intros Hk. split; simpl; [intros; by simplify_eq|].
  intros id q q' H1. rewrite lookup_insert. case_decide; intros; by simplify_eq.
Qed.

Lemma owners_preserved_comment_same db k c c' :
  comments db !! k = Some c → Comment.userId c' = Comment.userId c →
  owners_preserved db (prisma.set_comments (insert k c') db).
Proof.
  intros Hk Ho. split; simpl; [intros; by simplify_eq|].
  intros id q q' H1. rewrite lookup_insert. case_decide; intros; by simplify_eq.
Qed.

Lemma post_delete_transaction_shrinks flt id db :
  let db' := (prisma.transaction flt
                [prisma.comment_deleteMany_postId id; prisma.post_delete id] db).2 in
  owners_preserved db db'.
Proof.
  cbn zeta. destruct (posts db !! id) as [p|] eqn:Hp.
  - rewrite (post_delete_statements id db p) by done.
    destruct (fault_within 2 flt); [apply owners_preserved_refl|].
    apply owners_preserved_shrink; simpl.
    + intros k v [_ ?]%lookup_delete_Some. done.
    + intros k v [[? _]%map_lookup_filter_Some _]%map_lookup_filter_Some. done.
  - unfold prisma.transaction. simpl. unfold prisma.post_delete. simpl. rewrite Hp.
    repeat case_decide; apply owners_preserved_refl.
Qed.

Lemma user_delete_transaction_shrinks flt id db :
  let db' := (prisma.transaction flt
                [prisma.comment_deleteMany_userId id; prisma.post_deleteMany_userId id;
                 prisma.user_delete id] db).2 in
  owners_preserved db db'.
Proof.
  cbn zeta. rewrite user_delete_statements.
  destruct (fault_within 2 flt); [apply owners_preserved_refl|].
  destruct (users db !! id); [|apply owners_preserved_refl].
  destruct (fault_within 3 flt); [apply owners_preserved_refl|].
  apply owners_preserved_shrink; simpl.
  - intros k v [[? _]%map_lookup_filter_Some _]%map_lookup_filter_Some. done.
  - intros k v [[[? _]%map_lookup_filter_Some _]%map_lookup_filter_Some _]%map_lookup_filter_Some.
    done.
Qed.

Lemma post_create_preserves env title content uid db post db' :
  prisma_write.post_create env title content uid db = inr (post, db') →
  owners_preserved db db'.
Proof.
  unfold prisma_write.post_create. repeat case_bool_decide; try discriminate.
  intros [= <- <-]. apply owners_preserved_post_new.
  destruct (posts db !! uuid env) eqn:E; [|done]. exfalso; eauto.
Qed.

Lemma comment_create_preserves env content pid uid db c db' :
  prisma_write.comment_create env content pid uid db = inr (c, db') →
  owners_preserved db db'.
Proof.
  unfold prisma_write.comment_create. repeat case_bool_decide; try discriminate.
  intros [= <- <-]. apply owners_preserved_comment_new.
  destruct (comments db !! uuid env) eqn:E; [|done]. exfalso; eauto.
Qed.

Lemma run_op_preserves jwtConfig (o : Op) env req db :
  owners_preserved db (run_op jwtConfig o env req db).2.
Proof.
  destruct o; cbn [run_op].
  - unfold authHandlers.signup. repeat case_match; simplify_eq; simpl;
      try apply owners_preserved_refl.
    match goal with H : prisma_write.user_create _ _ _ = _ |- _ =>
      apply user_create_inv in H as (_ & _ & ->) end.
    apply owners_preserved_users.
  - unfold authHandlers.login. repeat case_match; simplify_eq; apply owners_preserved_refl.
  - unfold authHandlers.createAdmin. repeat case_match; simplify_eq; simpl;
      try apply owners_preserved_refl.
    match goal with H : prisma_write.user_create _ _ _ = _ |- _ =>
      apply user_create_inv in H as (_ & _ & ->) end.
    apply owners_preserved_users.
  - unfold postHandlers.create. repeat case_match; simplify_eq; simpl;
      try apply owners_preserved_refl.
    by eapply post_create_preserves.
  - unfold postHandlers.update, prisma.post_findUnique.
    destruct (zod.parse _ _) as [updates|] eqn:Hb; [|apply owners_preserved_refl].
    destruct (params req !! "id") as [id|]; [|apply owners_preserved_refl].
    destruct (posts db !! id) as [p|] eqn:Hp; [|apply owners_preserved_refl].
    destruct (req_user req) as [u|]; [|apply owners_preserved_refl].
    destruct (_ && _); [apply owners_preserved_refl|].
    rewrite (post_update_parsed env id _ _ db p Hb Hp). simpl.
    by eapply owners_preserved_post_same.
  - unfold postHandlers.delete.
    repeat case_match; simplify_eq; simpl; try apply owners_preserved_refl.
    all: match goal with
         | H : prisma.transaction ?f (prisma.comment_deleteMany_postId ?k :: _) ?d = _ |- _ =>
             pose proof (post_delete_transaction_shrinks f k d) as Hs;
             cbn zeta in Hs; by rewrite H in Hs
         end.
  - unfold postHandlers.getOne. repeat case_match; apply owners_preserved_refl.
  - unfold postHandlers.getMany. repeat case_match; apply owners_preserved_refl.
  - unfold commentHandlers.create. repeat case_match; simplify_eq; simpl;
      try apply owners_preserved_refl.
    by eapply comment_create_preserves.
  - unfold commentHandlers.update, prisma_write.comment_update,
      prisma.comment_findUnique.
    repeat case_match; simplify_eq; simpl; try apply owners_preserved_refl.
    by eapply owners_preserved_comment_same.
  - unfold commentHandlers.delete, prisma.comment_delete.
    repeat case_match; simplify_eq; simpl; try apply owners_preserved_refl.
    apply owners_preserved_shrink; simpl; [done|].
    intros k v [_ ?]%lookup_delete_Some. done.
  - unfold commentHandlers.getByPost. repeat case_match; apply owners_preserved_refl.
  - unfold userHandlers.updateUserRole, prisma_write.user_update_role.
    repeat case_match; simplify_eq; simpl; try apply owners_preserved_refl.
    apply owners_preserved_users.
  - unfold userHandlers.deleteUser.
    repeat case_match; simplify_eq; simpl; try apply owners_preserved_refl.
    all: match goal with
         | H : prisma.transaction ?f (prisma.comment_deleteMany_userId ?k :: _) ?d = _ |- _ =>
             pose proof (user_delete_transaction_shrinks f k d) as Hs;
             cbn zeta in Hs; by rewrite H in Hs
         end.
Qed.

(** C8. For every post or comment and every accepted update of it
    (the handler answers 200), the row is still there afterwards and its
    [userId] is what it was; and no handler at all, whatever it answers,
    changes the [userId] of a post or comment that it keeps. *)
Theorem C8_owner_never_reassigned (r : Resource) env req db id owner :
  params req !! "id" = Some id →
  owner_of r id db = Some owner →
  let res := mutate r m_update env req db in
  (status_of res.1 = Some 200 → owner_of r id res.2 = Some owner) ∧
  (∀ jwtConfig (o : Op) env' req',
     owners_preserved db (run_op jwtConfig o env' req' db).2).
Proof.
  intros Hid Ho. cbn zeta. split; [|intros; apply run_op_preserves].
  destruct r; cbn [mutate].
  - apply owner_of_post in Ho as (p & Hp & <-).
    unfold postHandlers.update, prisma.post_findUnique.
    destruct (zod.parse _ _) as [updates|] eqn:Hb; [|done].
    rewrite Hid, Hp.
    destruct (req_user req) as [u|]; [|done].
    destruct (_ && _); [done|].
    rewrite (post_update_parsed env id _ _ db p Hb Hp). simpl. intros _.
    by rewrite lookup_insert_eq.
  - apply owner_of_comment in Ho as (c & Hc & <-).
    unfold commentHandlers.update, prisma.comment_findUnique,
      prisma_write.comment_update.
    destruct (zod.parse _ _) as [data|] eqn:Hb; [|done].
    destruct (get_str "content" data); [|done].
    rewrite Hid, Hc.
    destruct (req_user req) as [u|]; [|done].
    destruct (_ && _); [done|]. simpl. intros _.
    by rewrite lookup_insert_eq.
Qed.

End claims_ownership.

(** Alice retitles her post and names Bob as owner in the same body. *)
Lemma C8_owner_never_reassigned_witness :
  (status_of (mutate (ext := Sample.externals) a_post m_update Sample.env
                Sample.alice_reassigns_p1 Sample.db).1 = Some 200 →
   owner_of a_post "p-1"
     (mutate (ext := Sample.externals) a_post m_update Sample.env
        Sample.alice_reassigns_p1 Sample.db).2 = Some "u-alice") ∧
  (∀ jwtConfig (o : Op) env' req',
     owners_preserved Sample.db
       (run_op (ext := Sample.externals) jwtConfig o env' req' Sample.db).2).
Proof.
  apply (C8_owner_never_reassigned (ext := Sample.externals) a_post Sample.env
           Sample.alice_reassigns_p1 Sample.db "p-1" "u-alice").
  - reflexivity.
  - vm_compute. reflexivity.
Defined.

(** The same request, evaluated: the answer is 200, the title is the new
    one and the owner is still Alice. *)
Example update_ignores_userId :
  status_of (postHandlers.update (ext := Sample.externals) Sample.env
               Sample.alice_reassigns_p1 Sample.db).1 = Some 200 ∧
  (Post.userId <$> posts (postHandlers.update (ext := Sample.externals) Sample.env
                            Sample.alice_reassigns_p1 Sample.db).2 !! "p-1")
    = Some "u-alice" ∧
  (Post.title <$> posts (postHandlers.update (ext := Sample.externals) Sample.env
                           Sample.alice_reassigns_p1 Sample.db).2 !! "p-1")
    = Some "Renamed".
Proof. by vm_compute. Qed.

(** A signup whose body asks for the [admin] role creates a plain user. *)
Example signup_discards_role :
  status_of (authHandlers.signup (ext := Sample.externals) Sample.jwtConfig Sample.env
               Sample.signup_as_admin Sample.db).1 = Some 201 ∧
  (User.role <$> users (authHandlers.signup (ext := Sample.externals) Sample.jwtConfig
                          Sample.env Sample.signup_as_admin Sample.db).2 !! "id-new")
    = Some user.
Proof. by vm_compute. Qed.

(** ** The gate with a token, and the auth handlers *)

Section extra_auth.
Context {ext : Externals}.

Lemma verify_sign userId email (role : UserRole) key ttl issued clock :
  jwt.verify (jwt.sign userId email role key ttl issued) key clock =
  if bool_decide (issued + ttl < clock) then inl TokenExpiredError
  else inr (mkJwtPayload userId email role issued (issued + ttl)).
Proof.
  unfold jwt.verify, jwt.sign. rewrite jwt_parse_serialize. simpl.
  by rewrite bool_decide_eq_true_2 by done.
Qed.

Lemma authenticate_passes jwtConfig env req db userId email (role : UserRole)
    ttl issued u :
  bearer_token req = Some (jwt.sign userId email role (secret jwtConfig) ttl issued) →
  jwt.sign userId email role (secret jwtConfig) ttl issued ≠ "" →
  seconds env ≤ issued + ttl →
  users db !! userId = Some u →
  authenticate jwtConfig env req db =
    (NextOk, set_user (Some (mkReqUser (User.id u) (User.email u) (User.role u))) req).
Proof.
  intros Hb Hne Hfresh Hu. unfold authenticate. rewrite Hb.
  destruct (jwt.sign _ _ _ _ _ _) as [|a s] eqn:E; [done|]. rewrite <- E.
  rewrite verify_sign, bool_decide_eq_false_2 by lia. simpl.
  unfold prisma.user_findUnique. by rewrite Hu.
Qed.

(** A request that presents an issued token: after the expiry the gate
    answers 401; before it, the gate looks the account up and passes with
    the identity the store holds, or answers 401 when the account is gone. *)
Theorem authenticate_issued_token jwtConfig env req db userId email (role : UserRole)
    ttl issued :
  bearer_token req = Some (jwt.sign userId email role (secret jwtConfig) ttl issued) →
  jwt.sign userId email role (secret jwtConfig) ttl issued ≠ "" →
  authenticate jwtConfig env req db =
    if bool_decide (issued + ttl < seconds env)
    then (Respond 401 (BError "Invalid token"), req)
    else match users db !! userId with
         | None => (Respond 401 (BError "Invalid token"), req)
         | Some u =>
             (NextOk,
              set_user (Some (mkReqUser (User.id u) (User.email u) (User.role u))) req)
         end.
Proof.
  intros Hb Hne. unfold authenticate. rewrite Hb.
  destruct (jwt.sign _ _ _ _ _ _) as [|a s] eqn:E; [done|]. rewrite <- E.
  rewrite verify_sign. case_bool_decide; [done|]. simpl.
  unfold prisma.user_findUnique. by destruct (users db !! userId).
Qed.


Lemma dispatch_miss' m pattern chain rest env req db :
  m ≠ method req ∨ match_path pattern (path req) = None →
  dispatch ((m, pattern, chain) :: rest) env req db = dispatch rest env req db.
Proof. intros [Hm|Hp]; simpl; case_decide; try done. by rewrite Hp. Qed.

Lemma dispatch_hit' m pattern chain rest env req db ps :
  m = method req → match_path pattern (path req) = Some ps →
  dispatch ((m, pattern, chain) :: rest) env req db =
  match run_chain chain env (set_params ps req) db with
  | (NextOk, (req', db')) => dispatch rest env req' db'
  | r => r
  end.
Proof. intros Hm Hp. simpl. case_decide; [|done]. by rewrite Hp. Qed.

(** The route that creates an admin decides on the role the store
    holds, not on the role the token claims: with an unexpired token of
    an account whose stored role is not [admin], the answer is 403 and the
    store is left as it was. *)
Theorem admin_route_uses_stored_role jwtConfig env req db userId email
    (role : UserRole) ttl issued u :
  POST = method req → ["auth"; "admin"] = path req →
  bearer_token req = Some (jwt.sign userId email role (secret jwtConfig) ttl issued) →
  jwt.sign userId email role (secret jwtConfig) ttl issued ≠ "" →
  seconds env ≤ issued + ttl →
  users db !! userId = Some u →
  User.role u ≠ admin →
  (router jwtConfig env req db).1 = Respond 403 (BError "Admin access required") ∧
  (router jwtConfig env req db).2.2 = db.
Proof.
  intros Hm Hp Hb Hne Hc Hu Hr.
  assert (router jwtConfig env req db =
          (Respond 403 (BError "Admin access required"),
           (set_user (Some (mkReqUser (User.id u) (User.email u) (User.role u)))
              (set_params ∅ req), db))) as ->; [|done].
  unfold router, routes.
  do 2 (rewrite dispatch_miss'
          by (rewrite <- ?Hm, <- ?Hp; first [left; discriminate | right; reflexivity])).
  rewrite (dispatch_hit' _ _ _ _ _ _ _ ∅) by (rewrite <- ?Hp; done).
  cbn [run_chain]. unfold gate at 1.
  rewrite (authenticate_passes jwtConfig env _ db userId email role ttl issued u)
    by done.
  unfold gate at 1, requireAdmin.
  cbn [req_user set_user fmap option_fmap option_map ru_role].
  by rewrite bool_decide_eq_true_2 by congruence.
Qed.

(** What [login] answers once the body carries an address of the
    accepted format and a password. *)
Lemma login_accepted jwtConfig env req db e pw :
  get_str "email" (body req) = Some e →
  get_str "password" (body req) = Some pw →
  is_email e = true →
  authHandlers.login jwtConfig env req db =
    match prisma.user_findUnique_email e db with
    | None => (Respond 401 (BError "Invalid credentials"), db)
    | Some u =>
        if negb (bcrypt_compare pw (User.password u))
        then (Respond 401 (BError "Invalid credentials"), db)
        else (Respond 200
                (BAuth (view_of u)
                   (jwt.sign (User.id u) (User.email u) (User.role u) (secret jwtConfig)
                      (expiresIn jwtConfig) (seconds env))), db)
    end.
Proof.
  unfold get_str. intros He Hpw Hm.
  destruct (body req !! "email") as [[]|] eqn:E1; simplify_eq.
  destruct (body req !! "password") as [[]|] eqn:E2; simplify_eq.
  unfold authHandlers.login, authHandlers.loginSchema, zod.parse, zod.parse_field.
  rewrite E1, E2. simpl. rewrite Hm. simpl.
  unfold get_str. rewrite lookup_insert_eq.
  rewrite lookup_insert_ne by done. by rewrite lookup_insert_eq.
Qed.

(** [login] never changes the store, and an unknown address and a wrong
    password get the very same answer. *)
Theorem login_failures_alike jwtConfig env req db e pw :
  get_str "email" (body req) = Some e →
  get_str "password" (body req) = Some pw →
  is_email e = true →
  prisma.user_findUnique_email e db = None ∨
  (∃ u, prisma.user_findUnique_email e db = Some u ∧
        bcrypt_compare pw (User.password u) = false) →
  authHandlers.login jwtConfig env req db
  = (Respond 401 (BError "Invalid credentials"), db) ∧
  (∀ env' req', (authHandlers.login jwtConfig env' req' db).2 = db).
Proof.
  intros He Hpw Hm Hbad. split.
  - rewrite (login_accepted jwtConfig env req db e pw) by done.
    destruct Hbad as [->|(u & -> & Hc)]; [done|]. by rewrite Hc.
  - intros env' req'. unfold authHandlers.login. by repeat case_match.
Qed.

Lemma findUnique_email_None e db k u :
  prisma.user_findUnique_email e db = None → users db !! k = Some u → User.email u ≠ e.
Proof.
  unfold prisma.user_findUnique_email. intros Hn Hk He.
  destruct (map_to_list _) as [|x l] eqn:El; [|done].
  apply map_to_list_empty_iff in El.
  assert (filter (λ kv : string * User.t, User.email kv.2 = e) (users db) !! k = Some u)
    as Hf by by apply map_lookup_filter_Some.
  by rewrite El, lookup_empty in Hf.
Qed.

Lemma findUnique_email_created e db k u :
  prisma.user_findUnique_email e db = None → User.email u = e →
  prisma.user_findUnique_email e (prisma.set_users (insert k u) db) = Some u.
Proof.
  intros Hn He. unfold prisma.user_findUnique_email. simpl.
  assert (filter (λ kv : string * User.t, User.email kv.2 = e) (<[k:=u]> (users db))
          = {[ k := u ]}) as ->; [|by rewrite map_to_list_singleton].
  apply map_eq. intros i. destruct (decide (i = k)) as [->|Hne].
  - rewrite lookup_singleton_eq. apply map_lookup_filter_Some.
    by rewrite lookup_insert_eq.
  - rewrite lookup_singleton_ne by done. apply map_lookup_filter_None.
    rewrite lookup_insert_ne by done.
    destruct (users db !! i) as [v|] eqn:Ev; [|by left].
    right. intros v' [= <-]. simpl. by eapply findUnique_email_None.
Qed.

Lemma user_of_data_fields env data u :
  prisma_write.user_of_data env data = Some u →
  get_str "email" data = Some (User.email u) ∧
  get_str "password" data = Some (User.password u) ∧
  get_str "country" data = Some (User.country u).
Proof.
  unfold prisma_write.user_of_data. intros Hu.
  repeat case_match; simplify_eq; done.
Qed.

(** Signup, then login: when the password check accepts every password
    against its own hash, a login with the address and the password of a
    successful signup succeeds and reports the same user. *)
Theorem signup_then_login jwtConfig env req db v token db' :
  authHandlers.signup jwtConfig env req db = (Respond 201 (BAuth v token), db') →
  (∀ pw, bcrypt_compare pw (bcrypt_hash pw) = true) →
  ∀ env' req',
    body req' !! "email" = body req !! "email" →
    body req' !! "password" = body req !! "password" →
    ∃ token', authHandlers.login jwtConfig env' req' db'
              = (Respond 200 (BAuth v token'), db').
Proof.
  unfold authHandlers.signup. intros Hs Hbc env' req' He Hpw.
  destruct (zod.parse authHandlers.signupSchema (body req)) as [data|] eqn:Hb;
    [|discriminate].
  destruct (get_str "email" data) as [e|] eqn:Ee; [|discriminate].
  destruct (get_str "password" data) as [pw|] eqn:Ep; [|discriminate].
  destruct (prisma.user_findUnique_email e db) eqn:Ef; [discriminate|].
  destruct (prisma_write.user_create _ _ _) as [err|[u db1]] eqn:Ec; [discriminate|].
  injection Hs as <- <- <-.
  apply user_create_inv in Ec as (Hu & Hfresh & ->).
  apply user_of_data_fields in Hu as (Hue & Hup & _).
  unfold get_str in Hue, Hup. rewrite lookup_insert_ne in Hue, Hup by done.
  rewrite lookup_insert_ne in Hue by done. rewrite lookup_insert_eq in Hup.
  injection Hup as Hup.
  assert (data !! "email" = body req !! "email") as H1.
  { eapply parse_lookup_declared; [| | |exact Hb];
      [compute_done|apply list_elem_of_here|done]. }
  assert (data !! "password" = body req !! "password") as H2.
  { eapply parse_lookup_declared; [| | |exact Hb];
      [compute_done|apply list_elem_of_further, list_elem_of_here|done]. }
  unfold get_str in Ee, Ep. rewrite H1 in Ee, Hue. rewrite H2 in Ep.
  destruct (body req !! "email") as [[s| | | |]|] eqn:Eb; simplify_eq.
  destruct (body req !! "password") as [[s'| | | |]|] eqn:Eq; simplify_eq.
  assert (is_email (User.email u) = true) as Hm.
  { simpl in Hb. unfold zod.parse_field in Hb. rewrite Eb in Hb. simpl in Hb.
    by destruct (is_email (User.email u)). }
  rewrite (login_accepted jwtConfig env' req' _ (User.email u) pw); [| | |done].
  - rewrite findUnique_email_created by done.
    rewrite <- Hup, Hbc. simpl. eauto.
  - unfold get_str. by rewrite He.
  - unfold get_str. by rewrite Hpw.
Qed.


End extra_auth.

(** Alice, whose stored role is [user], presents an unexpired token that
    claims the role [admin]. *)
Lemma authenticate_issued_token_witness :
  authenticate (ext := Sample.externals) Sample.jwtConfig Scenario.env_later
    Scenario.alice_creates_admin Sample.db =
  (NextOk,
   set_user (Some (mkReqUser "u-alice" "alice@example.com" user))
     Scenario.alice_creates_admin).
Proof.
  rewrite (authenticate_issued_token (ext := Sample.externals) Sample.jwtConfig
             Scenario.env_later Scenario.alice_creates_admin Sample.db
             "u-alice" "alice@example.com" admin 604800 1000).
  - reflexivity.
  - vm_compute. reflexivity.
  - vm_compute. discriminate.
Defined.

Lemma admin_route_uses_stored_role_witness :
  (router (ext := Sample.externals) Sample.jwtConfig Scenario.env_later
     Scenario.alice_creates_admin Sample.db).1
    = Respond 403 (BError "Admin access required") ∧
  (router (ext := Sample.externals) Sample.jwtConfig Scenario.env_later
     Scenario.alice_creates_admin Sample.db).2.2 = Sample.db.
Proof.
  apply (admin_route_uses_stored_role (ext := Sample.externals) Sample.jwtConfig
           Scenario.env_later Scenario.alice_creates_admin Sample.db
           "u-alice" "alice@example.com" admin 604800 1000 Sample.alice).
  - reflexivity.
  - reflexivity.
  - vm_compute. reflexivity.
  - vm_compute. discriminate.
  - vm_compute. discriminate.
  - vm_compute. reflexivity.
  - discriminate.
Defined.

(** Bob gives a wrong password. *)
Lemma login_failures_alike_witness :
  authHandlers.login (ext := Sample.externals) Sample.jwtConfig Sample.env
    Scenario.bob_logs_in_badly Sample.db
  = (Respond 401 (BError "Invalid credentials"), Sample.db) ∧
  (∀ env' req',
     (authHandlers.login (ext := Sample.externals) Sample.jwtConfig env' req' Sample.db).2
     = Sample.db).
Proof.
  apply (login_failures_alike (ext := Sample.externals) Sample.jwtConfig Sample.env
           Scenario.bob_logs_in_badly Sample.db "bob@example.com" "not-the-password").
  - vm_compute. reflexivity.
  - vm_compute. reflexivity.
  - vm_compute. reflexivity.
  - right. exists Sample.bob. split; vm_compute; reflexivity.
Defined.

(** Zed signs up and logs in. *)
Lemma signup_then_login_witness :
  ∃ token',
    authHandlers.login (ext := Sample.externals) Sample.jwtConfig Scenario.env_later
      Scenario.zed_logs_in
      (authHandlers.signup (ext := Sample.externals) Sample.jwtConfig Sample.env
         Scenario.zed_signs_up Sample.db).2
    = (Respond 200
         (BAuth (mkUserView "id-new" "zed@example.com" "Zed" "Zed" user) token'),
       (authHandlers.signup (ext := Sample.externals) Sample.jwtConfig Sample.env
          Scenario.zed_signs_up Sample.db).2).
Proof.
  eapply (signup_then_login (ext := Sample.externals) Sample.jwtConfig Sample.env
            Scenario.zed_signs_up Sample.db).
  - vm_compute. reflexivity.
  - intros pw. simpl. by apply bool_decide_eq_true_2.
  - vm_compute. reflexivity.
  - vm_compute. reflexivity.
Defined.

(** ** Creating and listing posts and comments *)

Section extra_content.
Context {ext : Externals}.

(** A post that [create] reports (201) is stored under a fresh id, is
    owned by the requester, carries the title and content of the body, and
    is what [getOne] then returns for that id; the other posts stay. *)
Theorem post_create_then_getOne env req db p db' :
  postHandlers.create env req db = (Respond 201 (BPost p), db') →
  (∃ i, req_user req = Some i ∧ Post.userId p = ru_id i) ∧
  get_str "title" (body req) = Some (Post.title p) ∧
  get_str "content" (body req) = Some (Post.content p) ∧
  posts db !! Post.id p = None ∧
  (∀ k, k ≠ Post.id p → posts db' !! k = posts db !! k) ∧
  (∀ env' req', params req' !! "id" = Some (Post.id p) →
     postHandlers.getOne env' req' db' = (Respond 200 (BPost p), db')).
Proof.
  unfold postHandlers.create. intros Hc.
  destruct (zod.parse postHandlers.createPostSchema (body req)) as [data|] eqn:Hb;
    [|discriminate].
  assert (data !! "title" = body req !! "title") as H1.
  { eapply parse_lookup_declared; [| | |exact Hb];
      [compute_done|apply list_elem_of_here|done]. }
  assert (data !! "content" = body req !! "content") as H2.
  { eapply parse_lookup_declared; [| | |exact Hb];
      [compute_done|apply list_elem_of_further, list_elem_of_here|done]. }
  unfold get_str in *. rewrite H1, H2 in Hc.
  destruct (body req !! "title") as [[t| | | |]|]; try discriminate.
  destruct (body req !! "content") as [[c| | | |]|]; try discriminate.
  destruct (req_user req) as [i|]; [|discriminate].
  unfold prisma_write.post_create in Hc.
  repeat case_bool_decide; try discriminate. injection Hc as <- <-. simpl.
  assert (posts db !! uuid env = None) as Hfresh.
  { destruct (posts db !! uuid env) eqn:E; [|done]. exfalso; eauto. }
  split_and!; eauto.
  - intros k Hk. by rewrite lookup_insert_ne.
  - intros env' req' Hid. unfold postHandlers.getOne, prisma.post_findUnique.
    rewrite Hid. simpl. by rewrite lookup_insert_eq.
Qed.

(** A comment that [create] reports (201) is stored under a fresh id,
    is owned by the requester and hangs under the post that the body
    names, which exists; the route parameter plays no part.  When the post
    that the body names is missing, the answer is 404 and nothing is
    stored. *)
Theorem comment_create_under_named_post env req db :
  (∀ c db', commentHandlers.create env req db = (Respond 201 (BComment c), db') →
     (∃ i, req_user req = Some i ∧ Comment.userId c = ru_id i) ∧
     get_str "postId" (body req) = Some (Comment.postId c) ∧
     is_Some (posts db !! Comment.postId c) ∧
     comments db !! Comment.id c = None ∧
     comments db' !! Comment.id c = Some c) ∧
  (∀ ps, commentHandlers.create env (set_params ps req) db
         = commentHandlers.create env req db) ∧
  (∀ pid, get_str "postId" (body req) = Some pid → posts db !! pid = None →
     status_of (commentHandlers.create env req db).1 = Some 404 ∨
     status_of (commentHandlers.create env req db).1 = Some 400) ∧
  (status_of (commentHandlers.create env req db).1 ≠ Some 201 →
   (commentHandlers.create env req db).2 = db).
Proof.
  split_and!.
  - intros c db'. unfold commentHandlers.create. intros Hc.
    destruct (zod.parse commentHandlers.createCommentSchema (body req)) as [data|] eqn:Hb;
      [|discriminate].
    assert (data !! "postId" = body req !! "postId") as H2.
    { eapply parse_lookup_declared; [| | |exact Hb];
        [compute_done|apply list_elem_of_further, list_elem_of_here|done]. }
    unfold get_str in *. rewrite H2 in Hc.
    destruct (data !! "content") as [[t| | | |]|]; try discriminate.
    destruct (body req !! "postId") as [[pid| | | |]|]; try discriminate.
    unfold prisma.post_findUnique in Hc.
    destruct (posts db !! pid) as [p|] eqn:Hp; [|discriminate].
    destruct (req_user req) as [i|]; [|discriminate].
    unfold prisma_write.comment_create in Hc.
    repeat case_bool_decide; try discriminate. injection Hc as <- <-. simpl.
    split_and!; eauto.
    + destruct (comments db !! uuid env) eqn:E; [|done]. exfalso; eauto.
    + by rewrite lookup_insert_eq.
  - done.
  - intros pid Hpid Hp. unfold commentHandlers.create.
    destruct (zod.parse commentHandlers.createCommentSchema (body req)) as [data|] eqn:Hb;
      [|by right].
    assert (data !! "postId" = body req !! "postId") as H2.
    { eapply parse_lookup_declared; [| | |exact Hb];
        [compute_done|apply list_elem_of_further, list_elem_of_here|done]. }
    assert (is_Some (data !! "content")) as [x Hx].
    { assert (data !! "content" = body req !! "content") as H1.
      { eapply parse_lookup_declared; [| | |exact Hb];
          [compute_done|apply list_elem_of_here|done]. }
      rewrite H1. simpl in Hb. unfold zod.parse_field in Hb.
      destruct (body req !! "content"); [eauto|discriminate]. }
    destruct (parse_lookup _ _ _ _ _ Hb Hx) as [_ [s ->]].
    unfold get_str in *. rewrite Hx, H2.
    destruct (body req !! "postId") as [[]|]; simplify_eq.
    unfold prisma.post_findUnique. rewrite Hp. by left.
  - unfold commentHandlers.create, prisma_write.comment_create.
    repeat case_match; simplify_eq; simpl; try done.
Qed.

End extra_content.

(** Alice writes a post. *)
Lemma post_create_then_getOne_witness :
  (∃ i, req_user Scenario.alice_writes_post = Some i ∧ "u-alice" = ru_id i) ∧
  get_str "title" (body Scenario.alice_writes_post) = Some "Third" ∧
  get_str "content" (body Scenario.alice_writes_post) = Some "Third post" ∧
  posts Sample.db !! "id-new" = None ∧
  (∀ k, k ≠ "id-new" →
        posts (postHandlers.create (ext := Sample.externals) Sample.env
                 Scenario.alice_writes_post Sample.db).2 !! k = posts Sample.db !! k) ∧
  (∀ env' req', params req' !! "id" = Some "id-new" →
     postHandlers.getOne env' req'
       (postHandlers.create (ext := Sample.externals) Sample.env
          Scenario.alice_writes_post Sample.db).2
     = (Respond 200
          (BPost (Post.mk "id-new" "Third" "Third post" "u-alice"
                    1700000000000 1700000000000)),
        (postHandlers.create (ext := Sample.externals) Sample.env
           Scenario.alice_writes_post Sample.db).2)).
Proof.
  apply (post_create_then_getOne (ext := Sample.externals) Sample.env
           Scenario.alice_writes_post Sample.db
           (Post.mk "id-new" "Third" "Third post" "u-alice" 1700000000000 1700000000000)).
  vm_compute. reflexivity.
Defined.

(** ** Listings and pagination *)

Section extra_listing.
Context {ext : Externals}.

Lemma parseInt_acc_nonneg s acc :
  zod.all_digits s = true → 0 ≤ acc → 0 ≤ zod.parseInt_acc acc s.
Proof.
  revert acc. induction s as [|c s IH]; intros acc Hd Hacc; simpl in *; [done|].
  apply andb_true_iff in Hd as [Hc Hs]. apply IH; [done|].
  unfold zod.is_digit in Hc. apply andb_true_iff in Hc as [Hlo _].
  apply Nat.leb_le in Hlo. lia.
Qed.

Lemma parseInt_nonneg s : zod.matches_digits s = true → 0 ≤ zod.parseInt s.
Proof.
  intros Hm. apply parseInt_acc_nonneg; [|done]. by destruct s.
Qed.

(** A declared key of a parsed object passes the checks of its field. *)
Lemma parse_lookup_checked schema input m k f v :
  NoDup schema.*1 → (k, f) ∈ schema →
  zod.parse schema input = Some m → m !! k = Some v →
  zod.type_ok (zod.ftype f) v = true.
Proof.
  revert m. induction schema as [|[k' f'] rest IH]; intros m Hnd Hin; simpl.
  - by apply elem_of_nil in Hin.
  - simpl in Hnd. apply NoDup_cons in Hnd as [Hk' Hnd].
    destruct (zod.parse_field f' (input !! k')) as [[x|]|] eqn:Ef;
      destruct (zod.parse rest input) as [m'|] eqn:Er; try discriminate;
      intros [= <-].
    + apply elem_of_cons in Hin as [[= -> ->]|Hin].
      * rewrite lookup_insert_eq. intros [= <-].
        unfold zod.parse_field in Ef. repeat case_match; by simplify_eq.
      * rewrite lookup_insert_ne; [by eapply IH|].
        intros ->. apply Hk'. apply list_elem_of_fmap. by exists (k, f).
    + apply elem_of_cons in Hin as [[= -> ->]|Hin]; [|by eapply IH].
      intros Hv. destruct (parse_lookup _ _ _ _ _ Er Hv) as [Hk _]. by destruct Hk'.
Qed.

Lemma StronglySorted_drop {A} (R : relation A) n l :
  StronglySorted R l → StronglySorted R (drop n l).
Proof.
  revert n. induction l as [|x l IH]; intros [|n] Hs; simpl; try done.
  apply IH. by apply StronglySorted_inv in Hs as [? _].
Qed.

Lemma StronglySorted_take {A} (R : relation A) n l :
  StronglySorted R l → StronglySorted R (take n l).
Proof.
  revert n. induction l as [|x l IH]; intros [|n] Hs; simpl; try constructor.
  - apply IH. by apply StronglySorted_inv in Hs as [? _].
  - apply Forall_take. by apply StronglySorted_inv in Hs as [_ ?].
Qed.

Lemma page_of_sorted {A} (R : relation A) skip take (l : list A) :
  StronglySorted R l → StronglySorted R (page_of skip take l).
Proof. intros. by apply StronglySorted_take, StronglySorted_drop. Qed.

Lemma page_of_elem {A} skip take (l : list A) x : x ∈ page_of skip take l → x ∈ l.
Proof.
  unfold page_of. intros Hx.
  eapply elem_of_sublist; [exact Hx|].
  etrans; [apply sublist_take|apply sublist_drop].
Qed.

Lemma page_of_length {A} skip take (l : list A) :
  0 ≤ take → Z.of_nat (List.length (page_of skip take l)) ≤ take.
Proof. intros Ht. unfold page_of. rewrite length_take. lia. Qed.

#[local] Instance newer_post_trans : Transitive newer_post.
Proof. unfold newer_post. intros a b c ??. lia. Qed.
#[local] Instance newer_post_total : Total newer_post.
Proof. unfold newer_post. intros a b. lia. Qed.
#[local] Instance newer_comment_trans : Transitive newer_comment.
Proof. unfold newer_comment. intros a b c ??. lia. Qed.
#[local] Instance newer_comment_total : Total newer_comment.
Proof. unfold newer_comment. intros a b. lia. Qed.

Lemma sorted_rows_elem {A} (R : relation A) `{∀ a b, Decision (R a b)}
    (m : gmap string A) x :
  x ∈ merge_sort R (snd <$> map_to_list m) → ∃ k, m !! k = Some x.
Proof.
  rewrite merge_sort_Permutation. intros ([k y] & -> & Hk)%list_elem_of_fmap.
  exists k. by apply elem_of_map_to_list.
Qed.

(** The page count covers the rows: it is the least number of pages of
    [limit] rows that hold [total] rows. *)
Lemma pages_of_covers total limit :
  0 ≤ total → 0 < limit →
  ∃ n, pages_of total limit = Some n ∧ (n - 1) * limit < total ≤ n * limit.
Proof.
  intros Ht Hl. unfold pages_of. rewrite decide_False by lia.
  eexists. split; [done|].
  pose proof (Z.div_mod (total + limit - 1) limit ltac:(lia)).
  pose proof (Z.mod_pos_bound (total + limit - 1) limit Hl). nia.
Qed.

(** A listing of posts that is answered (200) leaves the store as it
    was; the limit is not negative and bounds the number of rows of the
    page; every row is a post of the store (of the requested author when
    the query names one); the rows come newest first; [total] counts at
    least the rows of the page; and the page count is undefined for the
    limit 0 and otherwise the least number of pages that hold [total]
    rows. *)
Theorem getMany_page env req db data pg db' :
  postHandlers.getMany env req db = (Respond 200 (BPosts data pg), db') →
  db' = db ∧
  0 ≤ pg_limit pg ∧
  Z.of_nat (List.length data) ≤ pg_limit pg ∧
  Z.of_nat (List.length data) ≤ pg_total pg ∧
  (∀ p, p ∈ data →
     (∃ k, posts db !! k = Some p) ∧
     (∀ author, get_str "userId" (query req) = Some author → author ≠ "" →
                Post.userId p = author)) ∧
  StronglySorted newer_post data ∧
  (pg_limit pg = 0 → pg_pages pg = None) ∧
  (0 < pg_limit pg →
   ∃ n, pg_pages pg = Some n ∧ (n - 1) * pg_limit pg < pg_total pg ≤ n * pg_limit pg).
Proof.
  unfold postHandlers.getMany. intros Hg.
  destruct (zod.parse postHandlers.querySchema (query req)) as [q|] eqn:Hq;
    [|discriminate].
  destruct (get_str "page" q) as [page|] eqn:Epage; [|discriminate].
  destruct (get_str "limit" q) as [limit|] eqn:Elimit; [|discriminate].
  assert (0 ≤ zod.parseInt limit) as Hlim.
  { unfold get_str in Elimit.
    destruct (q !! "limit") as [[s| | | |]|] eqn:E; simplify_eq.
    pose proof (parse_lookup_checked postHandlers.querySchema _ _ "limit"
                  (zod.str_default [zod.regex_digits] "10") _
                  ltac:(compute_done)
                  ltac:(apply list_elem_of_further, list_elem_of_here) Hq E) as Hok.
    simpl in Hok. apply parseInt_nonneg. by destruct (zod.matches_digits limit). }
  assert (q !! "userId" = query req !! "userId") as Hu.
  { eapply parse_lookup_declared; [| | |exact Hq];
      [compute_done
      |apply list_elem_of_further, list_elem_of_further, list_elem_of_here|done]. }
  case_decide as Hskip; [discriminate|].
  injection Hg as <- <- <-. simpl.
  set (selected := match get_str "userId" q with
                   | Some userId =>
                       if decide (userId = "") then posts db
                       else filter (λ kv, prisma.post_of_user userId kv) (posts db)
                   | None => posts db
                   end).
  assert (List.length (merge_sort newer_post (snd <$> map_to_list selected)) = size selected)
    as Hlen.
  { rewrite merge_sort_Permutation, length_fmap. apply length_map_to_list. }
  split_and!; try done.
  - by apply page_of_length.
  - rewrite <- Hlen. unfold page_of. rewrite length_take, length_drop. lia.
  - intros p Hp. apply page_of_elem, sorted_rows_elem in Hp as [k Hk].
    subst selected. unfold get_str in *. rewrite Hu in Hk.
    destruct (query req !! "userId") as [[author| | | |]|];
      try (split; [by eauto|by intros ? ?]).
    destruct (decide (author = "")) as [->|Hne].
    + split; [eauto|]. intros a [= <-]. done.
    + apply map_lookup_filter_Some in Hk as [Hk Ha]. split; [eauto|].
      intros a [= <-] _. done.
  - apply page_of_sorted, StronglySorted_merge_sort; apply _.
  - intros ->. unfold pages_of. by rewrite decide_True.
  - intros Hpos. apply pages_of_covers; lia.
Qed.

(** A listing of the comments of a post that is answered (200) leaves
    the store as it was; the page number is at least 1 and the limit lies
    between 1 and 100 and bounds the number of rows; every row is a stored
    comment of that post; the rows come newest first; and the page count
    is the least number of pages that hold [total] rows. *)
Theorem getByPost_page env req db data pg db' :
  commentHandlers.getByPost env req db = (Respond 200 (BComments data pg), db') →
  db' = db ∧
  1 ≤ pg_page pg ∧
  1 ≤ pg_limit pg ≤ 100 ∧
  Z.of_nat (List.length data) ≤ pg_limit pg ∧
  (∃ postId, params req !! "postId" = Some postId ∧ is_Some (posts db !! postId) ∧
     ∀ c, c ∈ data → Comment.postId c = postId ∧ ∃ k, comments db !! k = Some c) ∧
  StronglySorted newer_comment data ∧
  (∃ n, pg_pages pg = Some n ∧ (n - 1) * pg_limit pg < pg_total pg ≤ n * pg_limit pg).
Proof.
  unfold commentHandlers.getByPost. intros Hg.
  destruct (commentHandlers.paginationSchema (query req)) as [[page limit]|] eqn:Hq;
    [|discriminate].
  assert (1 ≤ limit ≤ 100 ∧ 1 ≤ page) as [Hl Hp].
  { clear Hg. unfold commentHandlers.paginationSchema in Hq.
    repeat case_match; simplify_eq.
    all: repeat match goal with
           | H : _ && _ = true |- _ => apply andb_true_iff in H as [? ?]
           | H : bool_decide _ = true |- _ => apply bool_decide_eq_true in H
           end.
    all: change (zod.parseInt "10") with 10 in *;
         change (zod.parseInt "1") with 1 in *; lia. }
  destruct (params req !! "postId") as [postId|]; [|discriminate].
  unfold prisma.post_findUnique in Hg.
  destruct (posts db !! postId) as [post|] eqn:Epost; [|discriminate].
  injection Hg as <- <- <-. simpl.
  split_and!; try done; try lia.
  - apply page_of_length. lia.
  - exists postId. split_and!; [done|eauto|].
    intros c Hc. apply page_of_elem, sorted_rows_elem in Hc as [k Hk].
    apply map_lookup_filter_Some in Hk as [Hk Hc]. split; [done|eauto].
  - apply page_of_sorted, StronglySorted_merge_sort; apply _.
  - apply pages_of_covers; lia.
Qed.


End extra_listing.


(** The first page of one post per page, over the store of the example. *)
Lemma getMany_page_witness :
  postHandlers.getMany (ext := Sample.externals) Sample.env
    (Scenario.list_posts_page "1" "1") Sample.db
  = (Respond 200 (BPosts [Sample.p2] (mkPagination 1 1 2 (Some 2))), Sample.db) ∧
  Z.of_nat (List.length [Sample.p2]) ≤ 1 ∧
  StronglySorted newer_post [Sample.p2].
Proof.
  assert (postHandlers.getMany (ext := Sample.externals) Sample.env
            (Scenario.list_posts_page "1" "1") Sample.db
          = (Respond 200 (BPosts [Sample.p2] (mkPagination 1 1 2 (Some 2))), Sample.db))
    as H by (vm_compute; reflexivity).
  split; [exact H|].
  destruct (getMany_page (ext := Sample.externals) _ _ _ _ _ _ H)
    as (_ & _ & Hlen & _ & _ & Hsorted & _).
  split; [exact Hlen|exact Hsorted].
Defined.

(** The first page of the comments of the post [p-1], one per page. *)
Lemma getByPost_page_witness :
  commentHandlers.getByPost Sample.env (Scenario.list_comments_of_p1 "1" "1") Sample.db
  = (Respond 200 (BComments [Sample.c2] (mkPagination 1 1 2 (Some 2))), Sample.db) ∧
  1 ≤ pg_limit (mkPagination 1 1 2 (Some 2)) ≤ 100 ∧
  StronglySorted newer_comment [Sample.c2].
Proof.
  assert (commentHandlers.getByPost Sample.env (Scenario.list_comments_of_p1 "1" "1")
            Sample.db
          = (Respond 200 (BComments [Sample.c2] (mkPagination 1 1 2 (Some 2))), Sample.db))
    as H by (vm_compute; reflexivity).
  split; [exact H|].
  destruct (getByPost_page _ _ _ _ _ _ H) as (_ & _ & Hlim & _ & _ & Hsorted & _).
  split; [exact Hlim|exact Hsorted].
Defined.



(** ** Roles and profiles *)

Section extra_users.
Context {ext : Externals}.

(** The role change of another account that exists: the answer is 200,
    the target row takes the requested role and a fresh [updatedAt] and is
    otherwise what it was, every other row, the posts and the comments
    stay; the role of the requester is not consulted by the handler. *)
Theorem updateUserRole_changes_only_role env req db i id u r :
  req_user req = Some i →
  params req !! "id" = Some id →
  id ≠ ru_id i →
  users db !! id = Some u →
  get_str "role" (body req) ≫= role_of_string = Some r →
  let u' := User.mk (User.id u) (User.email u) (User.password u) (User.firstName u)
              (User.lastName u) (User.country u) r (User.isVerified u)
              (User.verificationToken u) (User.createdAt u) (now env) in
  userHandlers.updateUserRole env req db
  = (Respond 200 (BUser (view_of u')), mkDB (<[id := u']> (users db)) (posts db) (comments db)).
Proof.
  intros Hu Hid Hne Hl Hr. cbn zeta. unfold userHandlers.updateUserRole.
  destruct (get_str "role" (body req)) as [s|] eqn:Es; [|done]. simpl in Hr.
  unfold get_str in Es. destruct (body req !! "role") as [[]|] eqn:Eb; simplify_eq.
  assert (zod.parse userHandlers.roleSchema (body req) = Some (<["role" := JStr s]> ∅))
    as ->.
  { unfold zod.parse, userHandlers.roleSchema, zod.parse_field. rewrite Eb. simpl.
    rewrite bool_decide_eq_true_2; [done|].
    unfold role_of_string in Hr. repeat case_decide; simplify_eq;
      [apply list_elem_of_here|apply list_elem_of_further, list_elem_of_here]. }
  rewrite Hu, Hid. rewrite bool_decide_eq_false_2 by congruence.
  unfold get_str. rewrite lookup_insert_eq. simpl. rewrite Hr.
  unfold prisma_write.user_update_role. by rewrite Hl.
Qed.

Lemma profile_data_keys (input updates updates' : gmap string JValue) id db k v :
  zod.parse profileHandlers.updateProfileSchema input = Some updates →
  profileHandlers.check_password id updates db = inr updates' →
  profileHandlers.profile_data updates' !! k = Some v →
  k ∈ ["firstName"; "lastName"; "country"; "password"] ∧ ∃ s, v = JStr s.
Proof.
  intros Hp Hc Hk.
  assert (∀ k v, updates' !! k = Some v →
                 k ∈ (profileHandlers.updateProfileSchema).*1 ∧ ∃ s, v = JStr s) as Hup.
  { intros k0 v0 Hk0. unfold profileHandlers.check_password in Hc.
    repeat case_match; simplify_eq; try by eapply parse_lookup.
    apply lookup_insert_Some in Hk0 as [[<- <-]|[_ Hk0]]; [|by eapply parse_lookup].
    split; [compute_done|eauto]. }
  unfold profileHandlers.profile_data in Hk.
  assert (∀ k v, delete "newPassword" (delete "currentPassword" updates') !! k = Some v →
                 k ∈ ["firstName"; "lastName"; "country"] ∧ ∃ s, v = JStr s) as Hdel.
  { intros k0 v0 [Hn1 [Hn2 Hk0]%lookup_delete_Some]%lookup_delete_Some.
    destruct (Hup _ _ Hk0) as [Hin Hs]. split; [|done]. simpl in Hin.
    repeat (apply elem_of_cons in Hin as [->|Hin]); try done; try compute_done.
    by apply elem_of_nil in Hin. }
  repeat case_match; simplify_eq.
  - destruct (Hdel _ _ Hk) as [Hin ?]. split; [|done].
    repeat (apply elem_of_cons in Hin as [->|Hin]); try compute_done.
    by apply elem_of_nil in Hin.
  - apply lookup_insert_Some in Hk as [[<- <-]|[_ Hk]]; [split; [compute_done|eauto]|].
    destruct (Hdel _ _ Hk) as [Hin ?]. split; [|done].
    repeat (apply elem_of_cons in Hin as [->|Hin]); try compute_done.
    by apply elem_of_nil in Hin.
  - destruct (Hdel _ _ Hk) as [Hin ?]. split; [|done].
    repeat (apply elem_of_cons in Hin as [->|Hin]); try compute_done.
    by apply elem_of_nil in Hin.
Qed.

(** The row [prisma.user.update] writes for the data of a profile. *)
Lemma user_with_profile env (data : gmap string JValue) u :
  (∀ k v, data !! k = Some v →
          k ∈ ["firstName"; "lastName"; "country"; "password"] ∧ ∃ s, v = JStr s) →
  profileHandlers.user_with env data u =
  Some (User.mk (User.id u) (User.email u)
          (default (User.password u) (get_str "password" data))
          (default (User.firstName u) (get_str "firstName" data))
          (default (User.lastName u) (get_str "lastName" data))
          (default (User.country u) (get_str "country" data))
          (User.role u) (User.isVerified u) (User.verificationToken u)
          (User.createdAt u) (now env)).
Proof.
  intros Hd. unfold profileHandlers.user_with.
  assert (prisma_write.keys_within profileHandlers.user_update_columns data = true) as ->.
  { apply bool_decide_eq_true. intros k [v Hv]%elem_of_dom.
    destruct (Hd _ _ Hv) as [Hin _].
    repeat (apply elem_of_cons in Hin as [->|Hin]); try compute_done.
    by apply elem_of_nil in Hin. }
  assert (∀ k old, prisma_write.str_or k data old = Some (default old (get_str k data)))
    as Hstr.
  { intros k old. unfold prisma_write.str_or, get_str.
    destruct (data !! k) as [v|] eqn:Ev; [|done].
    by destruct (Hd _ _ Ev) as [_ [s ->]]. }
  assert (∀ k, k ∉ ["firstName"; "lastName"; "country"; "password"] → data !! k = None)
    as Hnone.
  { intros k Hk. destruct (data !! k) as [v|] eqn:Ev; [|done].
    by destruct (Hd _ _ Ev) as [? _]. }
  simpl. rewrite !Hstr. unfold profileHandlers.role_or, get_str at 1.
  rewrite (Hnone "role") by compute_done. rewrite (Hnone "email") by compute_done.
  done.
Qed.

(** What [updateProfile] does once the body has passed the schema and
    the password block has let the request through. *)
Lemma updateProfile_accepted env req db i u updates updates' :
  req_user req = Some i →
  users db !! ru_id i = Some u →
  zod.parse profileHandlers.updateProfileSchema (body req) = Some updates →
  profileHandlers.password_rule updates = true →
  profileHandlers.check_password (ru_id i) updates db = inr updates' →
  ∃ u', profileHandlers.user_with env (profileHandlers.profile_data updates') u = Some u' ∧
        User.email u' = User.email u ∧
        User.password u'
        = default (User.password u)
            (get_str "password" (profileHandlers.profile_data updates')) ∧
        profileHandlers.updateProfile env req db
        = (Respond 200 (BUser (view_of u')), prisma.set_users (insert (ru_id i) u') db).
Proof.
  intros Hi Hu Hb Hrule Hc.
  pose proof (user_with_profile env (profileHandlers.profile_data updates') u
                (λ k v, profile_data_keys _ _ _ _ _ k v Hb Hc)) as Hw.
  eexists. split; [exact Hw|]. split; [done|]. split; [done|].
  unfold profileHandlers.updateProfile. rewrite Hb, Hrule, Hi, Hc. simpl.
  unfold profileHandlers.user_update. rewrite Hu, Hw. simpl.
  by rewrite bool_decide_eq_false_2 by (intros Hne; by apply Hne).
Qed.

(** Whatever the body holds: [updateProfile] leaves the posts, the
    comments and every row but the requester's as they were, and in the
    requester's row it never changes the id, the address, the role or the
    verification state. *)
Theorem updateProfile_frame env req db :
  posts (profileHandlers.updateProfile env req db).2 = posts db ∧
  comments (profileHandlers.updateProfile env req db).2 = comments db ∧
  (∀ k u', users (profileHandlers.updateProfile env req db).2 !! k = Some u' →
     ∃ u, users db !! k = Some u ∧
          User.id u' = User.id u ∧ User.email u' = User.email u ∧
          User.role u' = User.role u ∧ User.isVerified u' = User.isVerified u ∧
          (ru_id <$> req_user req ≠ Some k → u' = u)) ∧
  (∀ k u, users db !! k = Some u →
          is_Some (users (profileHandlers.updateProfile env req db).2 !! k)).
Proof.
  assert (∀ o : Outcome, let res := (o, db) in
     posts res.2 = posts db ∧ comments res.2 = comments db ∧
     (∀ k u', users res.2 !! k = Some u' →
        ∃ u, users db !! k = Some u ∧
             User.id u' = User.id u ∧ User.email u' = User.email u ∧
             User.role u' = User.role u ∧ User.isVerified u' = User.isVerified u ∧
             (ru_id <$> req_user req ≠ Some k → u' = u)) ∧
     (∀ k u, users db !! k = Some u → is_Some (users res.2 !! k))) as Hsame.
  { intros o. simpl. split_and!; eauto 10. }
  destruct (zod.parse profileHandlers.updateProfileSchema (body req)) as [updates|] eqn:Hb.
  2:{ unfold profileHandlers.updateProfile. rewrite Hb. apply Hsame. }
  destruct (profileHandlers.password_rule updates) eqn:Hrule.
  2:{ unfold profileHandlers.updateProfile. rewrite Hb, Hrule. apply Hsame. }
  destruct (req_user req) as [i|] eqn:Hi.
  2:{ unfold profileHandlers.updateProfile. rewrite Hb, Hrule, Hi. apply Hsame. }
  destruct (profileHandlers.check_password (ru_id i) updates db) as [e|updates'] eqn:Hc.
  { unfold profileHandlers.updateProfile. rewrite Hb, Hrule, Hi, Hc. apply Hsame. }
  destruct (users db !! ru_id i) as [u|] eqn:Hu.
  2:{ unfold profileHandlers.updateProfile. rewrite Hb, Hrule, Hi, Hc. simpl.
      unfold profileHandlers.user_update. rewrite Hu.
      destruct (negb _); apply Hsame. }
  destruct (updateProfile_accepted env req db i u updates updates')
    as (u' & Hw & _ & _ & ->); try done.
  rewrite (user_with_profile env _ u (λ k v, profile_data_keys _ _ _ _ _ k v Hb Hc)) in Hw.
  injection Hw as <-. simpl. split_and!; try done.
  - intros k v. rewrite lookup_insert. case_decide as Hk.
    + subst k. intros [= <-]. exists u. split_and!; try done.
    + intros Hv. exists v. split_and!; done.
  - intros k v Hk. rewrite lookup_insert. case_decide; eauto.
Qed.

(** The stored password hash changes only when the body carries a new
    password together with a current password that the stored hash
    accepts; the new hash is then the hash of the new password.  When the
    stored hash does not accept the current password, the handler throws
    and the store stays as it was. *)
Theorem updateProfile_password env req db i u :
  req_user req = Some i →
  users db !! ru_id i = Some u →
  (∀ u', users (profileHandlers.updateProfile env req db).2 !! ru_id i = Some u' →
         User.password u' ≠ User.password u →
         ∃ current new,
           get_str "currentPassword" (body req) = Some current ∧
           get_str "newPassword" (body req) = Some new ∧
           bcrypt_compare current (User.password u) = true ∧
           User.password u' = bcrypt_hash new) ∧
  (∀ current new,
     get_str "currentPassword" (body req) = Some current →
     get_str "newPassword" (body req) = Some new →
     bcrypt_compare current (User.password u) = false →
     profileHandlers.updateProfile env req db
     = (Throw (CustomError_config 400 "Current password is incorrect"), db) ∨
     profileHandlers.updateProfile env req db = (Respond 400 BZodIssues, db)).
Proof.
  intros Hi Hu.
  destruct (zod.parse profileHandlers.updateProfileSchema (body req)) as [updates|] eqn:Hb.
  2:{ unfold profileHandlers.updateProfile. rewrite Hb. simpl.
      split; [|by eauto]. intros u' Hu' Hne. by simplify_eq. }
  destruct (profileHandlers.password_rule updates) eqn:Hrule.
  2:{ unfold profileHandlers.updateProfile. rewrite Hb, Hrule. simpl.
      split; [|by eauto]. intros u' Hu' Hne. by simplify_eq. }
  assert (updates !! "newPassword" = body req !! "newPassword") as Hn.
  { eapply parse_lookup_declared; [| | |exact Hb];
      [compute_done|do 4 apply list_elem_of_further; apply list_elem_of_here|done]. }
  assert (updates !! "currentPassword" = body req !! "currentPassword") as Hcur.
  { eapply parse_lookup_declared; [| | |exact Hb];
      [compute_done|do 3 apply list_elem_of_further; apply list_elem_of_here|done]. }
  assert (updates !! "password" = None) as Hpw.
  { eapply get_str_absent; [done|]. compute_done. }
  destruct (profileHandlers.check_password (ru_id i) updates db) as [e|updates'] eqn:Hc.
  - (* the password block throws *)
    split.
    + unfold profileHandlers.updateProfile. rewrite Hb, Hrule, Hi, Hc. simpl.
      intros u' Hu' Hne. by simplify_eq.
    + intros current new Hcurrent Hnew Hcmp.
      unfold profileHandlers.updateProfile. rewrite Hb, Hrule, Hi, Hc. left.
      unfold profileHandlers.check_password, prisma.user_findUnique, get_str in Hc.
      unfold get_str in Hcurrent, Hnew. rewrite Hn, Hcur, Hu in Hc.
      destruct (body req !! "newPassword") as [[]|]; simplify_eq.
      destruct (body req !! "currentPassword") as [[]|]; simplify_eq.
      rewrite Hcmp in Hc. case_bool_decide; by simplify_eq.
  - (* the password block lets the request through *)
    destruct (updateProfile_accepted env req db i u updates updates')
      as (u' & Hw & _ & Hpass & ->); try done.
    simpl. split.
    + intros u'' Hu'' Hne. rewrite lookup_insert_eq in Hu''. injection Hu'' as <-.
      rewrite Hpass in Hne |- *.
      unfold profileHandlers.check_password, prisma.user_findUnique in Hc.
      unfold profileHandlers.profile_data in *. unfold get_str in *.
      rewrite Hn, Hcur, Hu in Hc.
      destruct (body req !! "newPassword") as [[new| | | |]|] eqn:En;
        simplify_eq;
        try (rewrite Hn in Hne; simpl in Hne;
             rewrite !lookup_delete_ne, Hpw in Hne by done; done).
      case_bool_decide as Hempty.
      { simplify_eq. rewrite Hn in Hne. simpl in Hne.
        rewrite !lookup_delete_ne, Hpw in Hne by done. done. }
      destruct (body req !! "currentPassword") as [[current| | | |]|] eqn:Ec;
        simplify_eq.
      destruct (bcrypt_compare current (User.password u)) eqn:Hcmp; simplify_eq.
      rewrite lookup_insert_eq in Hne |- *.
      exists current, new. split_and!; try done.
      case_bool_decide as Hh; simpl in *.
      * rewrite !lookup_delete_ne in Hne by done.
        rewrite lookup_insert_ne, Hpw in Hne by done. done.
      * by rewrite lookup_insert_eq.
    + intros current new Hcurrent Hnew Hcmp. exfalso.
      unfold profileHandlers.check_password, prisma.user_findUnique, get_str in Hc.
      unfold get_str in Hcurrent, Hnew. rewrite Hn, Hcur, Hu in Hc.
      destruct (body req !! "newPassword") as [[]|] eqn:En; simplify_eq.
      destruct (body req !! "currentPassword") as [[]|] eqn:Ec; simplify_eq.
      rewrite Hcmp in Hc.
      case_bool_decide as Hempty; [|done]. subst.
      (* an empty new password does not pass the schema *)
      pose proof (parse_lookup_checked profileHandlers.updateProfileSchema _ _
                    "newPassword" (zod.str_opt [zod.min 8]) (JStr "")
                    ltac:(compute_done)
                    ltac:(do 4 apply list_elem_of_further; apply list_elem_of_here)
                    Hb Hn) as Hok.
      discriminate Hok.
Qed.

End extra_users.

(** The admin promotes Bob. *)
Lemma updateUserRole_changes_only_role_witness :
  userHandlers.updateUserRole (ext := Sample.externals) Sample.env
    Scenario.root_promotes_bob Sample.db
  = (Respond 200 (BUser (mkUserView "u-bob" "bob@example.com" "Bob" "Roe" admin)),
     mkDB (<["u-bob" :=
              User.mk "u-bob" "bob@example.com" "$2b$12$password123" "Bob" "Roe" "US"
                      admin false None 20 1700000000000]> (users Sample.db))
          (posts Sample.db) (comments Sample.db)).
Proof.
  apply (updateUserRole_changes_only_role (ext := Sample.externals) Sample.env
           Scenario.root_promotes_bob Sample.db
           (mkReqUser "u-root" "root@example.com" admin) "u-bob" Sample.bob admin).
  - reflexivity.
  - reflexivity.
  - discriminate.
  - vm_compute. reflexivity.
  - vm_compute. reflexivity.
Defined.

(** Alice changes her password, giving the current one. *)
Lemma updateProfile_password_witness :
  req_user Scenario.alice_edits_profile
  = Some (mkReqUser "u-alice" "alice@example.com" user) ∧
  users Sample.db !! "u-alice" = Some Sample.alice ∧
  (∀ u', users (profileHandlers.updateProfile (ext := Sample.externals) Sample.env
                  Scenario.alice_edits_profile Sample.db).2 !! "u-alice" = Some u' →
         User.password u' ≠ User.password Sample.alice →
         ∃ current new,
           get_str "currentPassword" (body Scenario.alice_edits_profile) = Some current ∧
           get_str "newPassword" (body Scenario.alice_edits_profile) = Some new ∧
           bcrypt_compare (Externals := Sample.externals) current
             (User.password Sample.alice) = true ∧
           User.password u' = bcrypt_hash (Externals := Sample.externals) new).
Proof.
  assert (req_user Scenario.alice_edits_profile
          = Some (mkReqUser "u-alice" "alice@example.com" user)) as Hi by reflexivity.
  assert (users Sample.db !! "u-alice" = Some Sample.alice) as Hu
    by (vm_compute; reflexivity).
  split; [exact Hi|]. split; [exact Hu|].
  destruct (updateProfile_password (ext := Sample.externals) Sample.env
              Scenario.alice_edits_profile Sample.db
              (mkReqUser "u-alice" "alice@example.com" user) Sample.alice Hi Hu)
    as [Hchange _].
  exact Hchange.
Defined.

(** The same request, evaluated: the role and the address of the body
    are ignored, the name and the password hash change. *)
Example updateProfile_ignores_role_and_email :
  (users (profileHandlers.updateProfile (ext := Sample.externals) Sample.env
            Scenario.alice_edits_profile Sample.db).2 !! "u-alice")
  = Some (User.mk "u-alice" "alice@example.com" "$2b$12$newpassword1" "Al" "Doe" "US"
            user false None 10 1700000000000).
Proof. by vm_compute. Qed.

(** ** The router and the application as a whole *)

Section extra_app.
Context {ext : Externals}.

Lemma user_create_plain env data db e :
  prisma_write.user_create env data db = inl e → plain e.
Proof. unfold prisma_write.user_create. repeat case_match; by intros [= <-]. Qed.

Lemma post_create_plain env t c uid db e :
  prisma_write.post_create env t c uid db = inl e → plain e.
Proof. unfold prisma_write.post_create. repeat case_match; by intros [= <-]. Qed.

Lemma comment_create_plain env c pid uid db e :
  prisma_write.comment_create env c pid uid db = inl e → plain e.
Proof. unfold prisma_write.comment_create. repeat case_match; by intros [= <-]. Qed.

Lemma post_update_plain env id data db e :
  prisma_write.post_update env id data db = inl e → plain e.
Proof. unfold prisma_write.post_update. repeat case_match; by intros [= <-]. Qed.

Lemma comment_update_plain env id c db e :
  prisma_write.comment_update env id c db = inl e → plain e.
Proof. unfold prisma_write.comment_update. repeat case_match; by intros [= <-]. Qed.

Lemma comment_delete_plain id db e : prisma.comment_delete id db = inl e → plain e.
Proof. unfold prisma.comment_delete. repeat case_match; by intros [= <-]. Qed.

Lemma post_delete_transaction_plain flt id db e db' :
  prisma.transaction flt [prisma.comment_deleteMany_postId id; prisma.post_delete id] db
  = (Some e, db') → plain e.
Proof.
  unfold prisma.transaction. simpl. unfold prisma.post_delete. simpl.
  repeat case_match; simplify_eq; by intros [= <- _].
Qed.

Ltac tame_handler :=
  repeat case_match; simplify_eq; simpl; try done;
  eauto using user_create_plain, post_create_plain, comment_create_plain,
    post_update_plain, comment_update_plain, comment_delete_plain,
    post_delete_transaction_plain.

Lemma signup_tame c env req db : tame (authHandlers.signup c env req db).1.
Proof. unfold authHandlers.signup. tame_handler. Qed.
Lemma login_tame c env req db : tame (authHandlers.login c env req db).1.
Proof. unfold authHandlers.login. tame_handler. Qed.
Lemma createAdmin_tame env req db : tame (authHandlers.createAdmin env req db).1.
Proof. unfold authHandlers.createAdmin. tame_handler. Qed.
Lemma post_create_tame env req db : tame (postHandlers.create env req db).1.
Proof. unfold postHandlers.create. tame_handler. Qed.
Lemma post_update_tame env req db : tame (postHandlers.update env req db).1.
Proof. unfold postHandlers.update. tame_handler. Qed.
Lemma post_delete_tame env req db : tame (postHandlers.delete env req db).1.
Proof. unfold postHandlers.delete. tame_handler. Qed.
Lemma getOne_tame env req db : tame (postHandlers.getOne env req db).1.
Proof. unfold postHandlers.getOne. tame_handler. Qed.
Lemma getMany_tame env req db : tame (postHandlers.getMany env req db).1.
Proof. unfold postHandlers.getMany. tame_handler. Qed.
Lemma comment_create_tame env req db : tame (commentHandlers.create env req db).1.
Proof. unfold commentHandlers.create. tame_handler. Qed.
Lemma comment_update_tame env req db : tame (commentHandlers.update env req db).1.
Proof. unfold commentHandlers.update. tame_handler. Qed.
Lemma comment_delete_tame env req db : tame (commentHandlers.delete env req db).1.
Proof. unfold commentHandlers.delete. tame_handler. Qed.
Lemma getByPost_tame env req db : tame (commentHandlers.getByPost env req db).1.
Proof. unfold commentHandlers.getByPost. tame_handler. Qed.

Lemma endpoint_tame h :
  (∀ env req db, tame (h env req db).1) → tame_middleware (endpoint h).
Proof.
  intros Hh env req db. unfold endpoint. specialize (Hh env req db).
  by destruct (h env req db).
Qed.

Lemma gate_authenticate_tame c : tame_middleware (gate (authenticate c)).
Proof.
  intros env req db. unfold gate, authenticate, jwt.verify, prisma.user_findUnique.
  repeat case_match; simplify_eq; done.
Qed.

Lemma gate_requireAdmin_tame : tame_middleware (gate requireAdmin).
Proof. intros env req db. unfold gate, requireAdmin. by case_bool_decide. Qed.

Lemma rateLimit_tame name : tame_middleware (rateLimit name).
Proof. intros env req db. unfold rateLimit. by destruct (limited env name). Qed.

Lemma health_tame : tame_middleware health.
Proof. by intros env req db. Qed.

Lemma run_chain_tame chain env req db :
  Forall tame_middleware chain → tame (run_chain chain env req db).1.
Proof.
  intros Hc. revert req db. induction Hc as [|m chain Hm _ IH]; intros req db; [done|].
  simpl. specialize (Hm env req db).
  destruct (m env req db) as [[] [req' db']]; simpl in *; try done; apply IH.
Qed.

Lemma dispatch_tame rs env req db :
  Forall (λ r : Route, Forall tame_middleware r.2) rs →
  tame (dispatch rs env req db).1.
Proof.
  intros Hrs. revert req db.
  induction Hrs as [|[[m pattern] chain] rs Hr _ IH]; intros req db; [done|].
  simpl. case_decide; [|apply IH].
  destruct (match_path pattern (path req)) as [ps|]; [|apply IH].
  pose proof (run_chain_tame chain env (set_params ps req) db Hr) as Ht.
  destruct (run_chain chain env (set_params ps req) db) as [[] [req' db']];
    simpl in *; try done; apply IH.
Qed.

Lemma router_tame c env req db : tame (router c env req db).1.
Proof.
  apply dispatch_tame. unfold routes.
  repeat (apply List.Forall_cons; [simpl|]); [..|apply List.Forall_nil].
  all: repeat (apply List.Forall_cons); try apply List.Forall_nil.
  all: first [ apply gate_authenticate_tame | apply gate_requireAdmin_tame
             | apply rateLimit_tame | apply health_tame
             | apply endpoint_tame; intros ].
  all: eauto using signup_tame, login_tame, createAdmin_tame, post_create_tame,
         post_update_tame, post_delete_tame, getOne_tame, getMany_tame,
         comment_create_tame, comment_update_tame, comment_delete_tame, getByPost_tame.
Qed.

(** Whatever the request, outside the documentation pages (which the
    model of the router leaves out), the application answers it: the
    outcome is a response, never a pending [next] and never a rejection.
    In production a 500 carries no detail: its payload is the fixed
    text. *)
Theorem app_always_answers c production env req db :
  (∀ rest, path req ≠ "api" :: "docs" :: rest) →
  (∃ status b, (app c production env req db).1 = Respond status b) ∧
  (production = true →
   ∀ b, (app c production env req db).1 = Respond 500 b →
        b = BError "Internal server error").
Proof.
  intros _. unfold app, limiter, rateLimit.
  destruct (limited env "limiter"); [split; [eauto|by intros _ b [= <-]]|].
  set (routed := match path req with
                 | "api" :: rest => router c env (set_path rest req) db
                 | _ => (NextOk, (req, db))
                 end).
  assert (tame routed.1) as Ht.
  { subst routed. destruct (path req) as [|seg rest]; [done|].
    destruct (decide (seg = "api")) as [->|Hne]; [apply router_tame|].
    by repeat case_match. }
  destruct routed as [[status b| |e|e] [req' db']]; simpl in Ht.
  - split; [eauto|]. intros _ b' [= -> <-]. done.
  - case_bool_decide; (split; [eauto|by intros _ b' [= <-]]).
  - destruct e; simpl in *; try done;
      (split; [eauto|]); intros -> b' [= <-]; done.
  - done.
Qed.


(** When the limiter of the auth routes is exhausted, a signup and a
    login are answered 429 before the handler runs: no account is created
    and no token is issued. *)
Theorem auth_routes_limited c env req db what :
  POST = method req →
  ["auth"; what] = path req →
  what ∈ ["signup"; "login"] →
  limited env "authLimiter" = true →
  (router c env req db).1
    = Respond 429 (BText "Too many requests, please try again later.") ∧
  (router c env req db).2.2 = db.
Proof.
  intros Hm Hp Hw Hlim.
  assert (∀ chain rest,
            dispatch ((POST, [lit "auth"; lit what], authLimiter :: chain) :: rest)
              env req db
            = (Respond 429 (BText "Too many requests, please try again later."),
               (set_params ∅ req, db))) as Hhit.
  { intros chain rest. rewrite (dispatch_hit' _ _ _ _ _ _ _ ∅).
    - cbn [run_chain]. unfold authLimiter, rateLimit. by rewrite Hlim.
    - done.
    - rewrite <- Hp. simpl. by rewrite !decide_True. }
  unfold router, routes.
  apply elem_of_cons in Hw as [->|Hw].
  - by rewrite Hhit.
  - apply elem_of_cons in Hw as [->|Hw]; [|by apply elem_of_nil in Hw].
    rewrite dispatch_miss' by (right; rewrite <- Hp; reflexivity).
    by rewrite Hhit.
Qed.

End extra_app.

(** A request for [/api/users] in production. *)
Lemma app_always_answers_witness :
  (∀ rest, path Scenario.get_users ≠ "api" :: "docs" :: rest) ∧
  (∃ status b,
     (app (ext := Sample.externals) Sample.jwtConfig true Sample.env
        Scenario.get_users Sample.db).1 = Respond status b) ∧
  (true = true →
   ∀ b, (app (ext := Sample.externals) Sample.jwtConfig true Sample.env
           Scenario.get_users Sample.db).1 = Respond 500 b →
        b = BError "Internal server error").
Proof.
  assert (∀ rest, path Scenario.get_users ≠ "api" :: "docs" :: rest) as H
    by (intros rest; simpl; congruence).
  split; [exact H|].
  exact (app_always_answers (ext := Sample.externals) Sample.jwtConfig true Sample.env
           Scenario.get_users Sample.db H).
Defined.


(** A signup while the limiter of the auth routes is exhausted. *)
Lemma auth_routes_limited_witness :
  (router (ext := Sample.externals) Sample.jwtConfig Scenario.env_auth_limited
     Scenario.zed_signs_up Sample.db).1
    = Respond 429 (BText "Too many requests, please try again later.") ∧
  (router (ext := Sample.externals) Sample.jwtConfig Scenario.env_auth_limited
     Scenario.zed_signs_up Sample.db).2.2 = Sample.db.
Proof.
  apply (auth_routes_limited (ext := Sample.externals) Sample.jwtConfig
           Scenario.env_auth_limited Scenario.zed_signs_up Sample.db "signup").
  - reflexivity.
  - reflexivity.
  - compute_done.
  - reflexivity.
Defined.

(** ** String utilities *)

Section extra_strings.
Import stringUtils.

Ltac by_units c := destruct c as [[] [] [] [] [] [] [] []]; vm_compute; try done.

Lemma lowered_unit c :
  (is_word (lower c) || is_space (lower c) || is_dash (lower c)) = true →
  is_separator (lower c) = false → slug_unit (lower c) = true.
Proof. by_units c. Qed.

Lemma separator_kept c : is_dash c = true → is_separator c = true.
Proof. by_units c. Qed.

Lemma slug_unit_fixed c :
  slug_unit c = true →
  lower c = c ∧ (is_word c || is_space c || is_dash c) = true ∧
  is_separator c = is_dash c.
Proof. by_units c. Qed.

Lemma dash_is_dash c : is_dash c = true → c = "-"%char.
Proof. by_units c. Qed.

Lemma no_double_cons f x l :
  no_double f (x :: l) ↔
  (∀ c, head l = Some c → f x = true → f c = false) ∧ no_double f l.
Proof.
  unfold no_double. split.
  - intros H. split.
    + intros c Hc. apply (H 0%nat x c); [done|]. by destruct l; simplify_eq.
    + intros i c1 c2 H1 H2. by apply (H (S i) c1 c2).
  - intros [Hh Ht] [|i] c1 c2 H1 H2; simpl in *.
    + simplify_eq. apply Hh. by destruct l; simplify_eq.
    + by eapply Ht.
Qed.

Lemma no_double_nil f : no_double f [].
Proof. intros i c1 c2 H. by rewrite lookup_nil in H. Qed.

Lemma no_double_infix f a l b : no_double f (a ++ l ++ b)%list → no_double f l.
Proof.
  intros H i c1 c2 H1 H2.
  apply (H (List.length a + i)%nat c1 c2).
  - rewrite lookup_app_r by lia.
    replace (List.length a + i - List.length a)%nat with i by lia.
    by apply lookup_app_l_Some.
  - rewrite lookup_app_r by lia.
    replace (S (List.length a + i) - List.length a)%nat with (S i) by lia.
    by apply lookup_app_l_Some.
Qed.

(** *** Runs of separators *)

Lemma collapse_units b l :
  Forall (λ c, (is_word c || is_space c || is_dash c) = true ∧ ∃ c', c = lower c') l →
  Forall (λ c, slug_unit c = true) (collapse b l).
Proof.
  intros Hl. revert b. induction Hl as [|c l [Hc [c' ->]] _ IH]; intros b; simpl; [done|].
  destruct (is_separator (lower c')) eqn:Es.
  - destruct b; [apply IH|]. constructor; [done|apply IH].
  - constructor; [by apply lowered_unit|apply IH].
Qed.

Lemma collapse_head_in_run l c :
  head (collapse true l) = Some c → is_dash c = false.
Proof.
  induction l as [|x l IH]; simpl; [done|].
  destruct (is_separator x) eqn:Es; [done|]. simpl. intros [= <-].
  destruct (is_dash x) eqn:Ed; [|done]. apply separator_kept in Ed. congruence.
Qed.

Lemma collapse_no_double b l : no_double is_dash (collapse b l).
Proof.
  revert b. induction l as [|x l IH]; intros b; simpl; [apply no_double_nil|].
  destruct (is_separator x) eqn:Es.
  - destruct b; [apply IH|]. apply no_double_cons. split; [|apply IH].
    intros c Hc _. by eapply collapse_head_in_run.
  - apply no_double_cons. split; [|apply IH].
    intros c _ Hd. apply separator_kept in Hd. congruence.
Qed.

(** *** Stripping both ends *)

Lemma drop_while_suffix f l : ∃ a, l = (a ++ drop_while f l)%list.
Proof.
  induction l as [|x l [a IH]]; simpl; [by exists []|].
  destruct (f x); [|by exists []]. exists (x :: a). simpl. by f_equal.
Qed.

Lemma drop_while_head f l c : head (drop_while f l) = Some c → f c = false.
Proof.
  induction l as [|x l IH]; simpl; [done|].
  destruct (f x) eqn:E; [done|]. simpl. by intros [= <-].
Qed.

Lemma drop_while_id f l : (∀ c, head l = Some c → f c = false) → drop_while f l = l.
Proof. destruct l as [|x l]; simpl; [done|]. intros H. by rewrite (H x). Qed.

Lemma head_rev (l : list ascii) : head (rev l) = last l.
Proof.
  induction l as [|x l IH] using rev_ind; [done|].
  by rewrite rev_app_distr, last_snoc.
Qed.

Lemma last_rev (l : list ascii) : last (rev l) = head l.
Proof. by rewrite <- head_rev, rev_involutive. Qed.

Lemma strip_infix f l : ∃ a b, l = (a ++ strip f l ++ b)%list.
Proof.
  unfold strip. destruct (drop_while_suffix f l) as [a Ha].
  destruct (drop_while_suffix f (rev (drop_while f l))) as [b Hb].
  exists a, (rev b). rewrite Ha at 1. f_equal.
  rewrite <- rev_app_distr, <- Hb. by rewrite rev_involutive.
Qed.

Lemma strip_clean f l : clean_ends f (strip f l).
Proof.
  unfold strip. split; intros c.
  - rewrite head_rev.
    destruct (drop_while_suffix f (rev (drop_while f l))) as [b Hb].
    revert Hb. generalize (drop_while f (rev (drop_while f l))).
    intros d Hb Hc.
    assert (last (rev (drop_while f l)) = Some c) as Hl.
    { rewrite Hb. destruct d as [|x d]; [done|]. by rewrite last_app_cons. }
    rewrite last_rev in Hl. by eapply drop_while_head.
  - rewrite last_rev. apply drop_while_head.
Qed.

Lemma strip_id f l : clean_ends f l → strip f l = l.
Proof.
  intros [Hh Hl]. unfold strip. rewrite (drop_while_id f l) by done.
  rewrite drop_while_id; [apply rev_involutive|].
  intros c. rewrite head_rev. apply Hl.
Qed.

Lemma Forall_infix {A} (P : A → Prop) (a l b : list A) :
  Forall P (a ++ l ++ b)%list → Forall P l.
Proof. intros H. by apply Forall_app in H as [_ [? _]%Forall_app]. Qed.

(** *** [slugify] *)

Lemma slugify_units_shape l :
  Forall (λ c, slug_unit c = true) (slugify_units l) ∧
  clean_ends is_dash (slugify_units l) ∧
  no_double is_dash (slugify_units l).
Proof.
  unfold slugify_units.
  set (kept := keep_slug_chars (map lower l)).
  destruct (strip_infix is_dash (collapse false kept)) as (a & b & Hab).
  split_and!.
  - apply (Forall_infix _ a _ b). rewrite <- Hab. apply collapse_units.
    subst kept. unfold keep_slug_chars. apply Forall_forall. intros c Hc.
    apply list_elem_of_In, filter_In in Hc as [Hin Hk]. split; [done|].
    apply in_map_iff in Hin as (c' & <- & _). eauto.
  - apply strip_clean.
  - apply (no_double_infix _ a _ b). rewrite <- Hab. apply collapse_no_double.
Qed.

Lemma collapse_slug l :
  Forall (λ c, slug_unit c = true) l → no_double is_dash l →
  collapse false l = l ∧
  ((∀ c, head l = Some c → is_dash c = false) → collapse true l = l).
Proof.
  intros Hl. induction Hl as [|x l Hx _ IH]; intros Hd; [done|].
  apply no_double_cons in Hd as [Hh Hd]. destruct (IH Hd) as [IH1 IH2].
  destruct (slug_unit_fixed x Hx) as (_ & _ & Hsep). simpl. rewrite Hsep.
  destruct (is_dash x) eqn:Ed.
  - split.
    + rewrite IH2 by (intros c Hc; by apply Hh). f_equal. symmetry. by apply dash_is_dash.
    + intros Hhead. specialize (Hhead x eq_refl). congruence.
  - rewrite IH1. done.
Qed.

Lemma slug_fixed l :
  Forall (λ c, slug_unit c = true) l → clean_ends is_dash l → no_double is_dash l →
  slugify_units l = l.
Proof.
  intros Hl Hc Hd. unfold slugify_units.
  assert (map lower l = l) as ->.
  { clear Hc Hd. induction Hl as [|x l Hx _ IH]; [done|]. cbn [map].
    destruct (slug_unit_fixed x Hx) as (Hx' & _ & _). by rewrite Hx', IH. }
  assert (keep_slug_chars l = l) as ->.
  { clear Hc Hd. unfold keep_slug_chars.
    induction Hl as [|x l Hx _ IH]; [done|]. cbn [List.filter].
    destruct (slug_unit_fixed x Hx) as (_ & Hx' & _). by rewrite Hx', IH. }
  destruct (collapse_slug l Hl Hd) as [-> _]. by apply strip_id.
Qed.

(** A slug is made of the units [a-z], [0-9] and dash only, neither
    starts nor ends with a dash and holds no two dashes in a row. *)
Theorem slugify_shape (text : string) :
  Forall (λ c, slug_unit c = true) (list_ascii_of_string (slugify text)) ∧
  clean_ends is_dash (list_ascii_of_string (slugify text)) ∧
  no_double is_dash (list_ascii_of_string (slugify text)).
Proof.
  unfold slugify. rewrite list_ascii_of_string_of_list_ascii.
  apply slugify_units_shape.
Qed.

(** A slug is its own slug. *)
Theorem slugify_idempotent (text : string) :
  slugify (slugify text) = slugify text.
Proof.
  unfold slugify. rewrite list_ascii_of_string_of_list_ascii. f_equal.
  destruct (slugify_units_shape (list_ascii_of_string text)) as (H1 & H2 & H3).
  by apply slug_fixed.
Qed.

(** *** [sanitize] *)

Lemma filter_fixed (f : ascii → bool) l :
  Forall (λ c, f c = true) l → List.filter f l = l.
Proof.
  intros Hl. induction Hl as [|x l Hx _ IH]; [done|]. simpl. by rewrite Hx, IH.
Qed.

Lemma sanitize_units_shape l :
  Forall (λ c, is_angle c = false) (sanitize_units l) ∧
  clean_ends is_space (sanitize_units l).
Proof.
  unfold sanitize_units. split; [|apply strip_clean].
  destruct (strip_infix is_space (List.filter (λ c, negb (is_angle c)) l))
    as (a & b & Hab).
  apply (Forall_infix _ a _ b). rewrite <- Hab. apply Forall_forall.
  intros c [_ Hc]%list_elem_of_In%filter_In. by apply negb_true_iff.
Qed.

(** What [sanitize] returns holds no angle bracket, neither starts nor
    ends with white space, and is left as it is by a second pass. *)
Theorem sanitize_shape (text : string) :
  Forall (λ c, is_angle c = false) (list_ascii_of_string (sanitize text)) ∧
  clean_ends is_space (list_ascii_of_string (sanitize text)) ∧
  sanitize (sanitize text) = sanitize text.
Proof.
  unfold sanitize. rewrite list_ascii_of_string_of_list_ascii.
  destruct (sanitize_units_shape (list_ascii_of_string text)) as [H1 H2].
  split_and!; [done|done|]. f_equal. unfold sanitize_units at 1.
  rewrite filter_fixed; [by apply strip_id|].
  eapply Forall_impl; [exact H1|]. intros c Hc. simpl in *. by rewrite Hc.
Qed.

(** *** [truncate] *)

Lemma string_of_list_app a b :
  string_of_list_ascii (a ++ b)%list = string_of_list_ascii a ++ string_of_list_ascii b.
Proof. induction a as [|x a IH]; simpl; [done|]. by rewrite IH. Qed.

Lemma string_length_list s : String.length s = List.length (list_ascii_of_string s).
Proof. induction s as [|c s IH]; simpl; [done|]. by rewrite IH. Qed.

(** A text that fits is returned as it is; a longer text is cut to its
    first [len] units and three dots are appended, so that the result is
    [len + 3] units long (which is more than the text had when it was only
    one or two units over). *)
Theorem truncate_cuts (text : string) (len : Z) :
  0 ≤ len →
  (Z.of_nat (String.length text) ≤ len → truncate text len = text) ∧
  (len < Z.of_nat (String.length text) →
   ∃ kept rest, text = kept ++ rest ∧
                Z.of_nat (String.length kept) = len ∧
                truncate text len = kept ++ "..." ∧
                Z.of_nat (String.length (truncate text len)) = len + 3).
Proof.
  intros Hlen. unfold truncate. split.
  - intros Hfit. by rewrite (proj2 (Z.leb_le _ _) Hfit).
  - intros Hlong. rewrite (proj2 (Z.leb_gt _ _) Hlong).
    unfold slice0. rewrite (proj2 (Z.ltb_ge _ _) Hlen).
    set (units := list_ascii_of_string text).
    assert (List.length units = String.length text) as Hu
      by (symmetry; apply string_length_list).
    exists (string_of_list_ascii (take (Z.to_nat len) units)),
           (string_of_list_ascii (drop (Z.to_nat len) units)).
    assert (String.length (string_of_list_ascii (take (Z.to_nat len) units))
            = Z.to_nat len) as Hk.
    { rewrite string_length_list, list_ascii_of_string_of_list_ascii, length_take. lia. }
    split_and!.
    + rewrite <- string_of_list_app, take_drop. subst units.
      by rewrite string_of_list_ascii_of_string.
    + lia.
    + done.
    + rewrite string_length_list.
      assert (∀ s t, list_ascii_of_string (s ++ t)
                     = (list_ascii_of_string s ++ list_ascii_of_string t)%list) as Happ.
      { intros s t. induction s as [|c s IH]; simpl; [done|]. by rewrite IH. }
      rewrite Happ, length_app, <- string_length_list, Hk. simpl. lia.
Qed.

End extra_strings.

(** A text of eleven units cut to five. *)
Lemma truncate_cuts_witness :
  0 ≤ 5 ∧
  (Z.of_nat (String.length "hello world") ≤ 5 →
   stringUtils.truncate "hello world" 5 = "hello world") ∧
  (5 < Z.of_nat (String.length "hello world") →
   ∃ kept rest, "hello world" = kept ++ rest ∧
                Z.of_nat (String.length kept) = 5 ∧
                stringUtils.truncate "hello world" 5 = kept ++ "..." ∧
                Z.of_nat (String.length (stringUtils.truncate "hello world" 5)) = 5 + 3).
Proof.
  split; [lia|]. apply (truncate_cuts "hello world" 5). lia.
Defined.

Example slugify_example :
  stringUtils.slugify "  Hello,  World_ -- of  Rocq!  " = "hello-world-of-rocq".
Proof. reflexivity. Qed.
